(** * precheck: a shallow embedding of the project-convention validator

    The development follows [precheck.py] function by function.  Python
    strings are Rocq strings holding their UTF-8 bytes, [pathlib] paths are
    lists of path components, the standard output is the list of the lines
    printed, and [sys.exit] is an outcome of the small process monad [proc]. *)

From stdpp Require Import gmap strings list.
From Stdlib Require Import DecimalString.

Open Scope string_scope.
Open Scope list_scope.

Set Warnings "-register-all".
Set Default Proof Using "Type".

(** ** Strings *)

Module Str.

(** [s.endswith(suffix)]: some tail of [s] is [suffix]. *)
Fixpoint endswith (s suffix : string) : bool :=
  String.eqb s suffix
  || match s with
     | EmptyString => false
     | String _ s' => endswith s' suffix
     end.

(** [s.startswith(p)]. *)
Definition startswith (s p : string) : bool := String.prefix p s.

(** [s.split(sep)] for a one-character separator: never the empty list. *)
Fixpoint split (sep : Ascii.ascii) (s : string) : list string :=
  match s with
  | EmptyString => [EmptyString]
  | String c s' =>
      if Ascii.eqb c sep then EmptyString :: split sep s'
      else match split sep s' with
           | [] => [String c EmptyString]
           | seg :: segs => String c seg :: segs
           end
  end.

(** [sep.join(parts)]. *)
Fixpoint join (sep : string) (parts : list string) : string :=
  match parts with
  | [] => EmptyString
  | [p] => p
  | p :: ps => p +:+ sep +:+ join sep ps
  end.

(** The decimal digits of a natural number, as an f-string prints it. *)
Definition of_nat (n : nat) : string := NilEmpty.string_of_uint (Nat.to_uint n).

(** The character [.]. *)
Definition dot : Ascii.ascii := Ascii.ascii_of_nat 46.

(** The double-quote character as a one-character string. *)
Definition dquote : string := String (Ascii.ascii_of_nat 34) EmptyString.

End Str.

(** ** The syntax tree handed over by [ast.parse]

    Only the node classes the validator looks at are kept apart; every other
    expression is [ExprOther].  A statement that the validator does not
    inspect is [StmtOther], which keeps the statement lists it owns, in field
    order, because [ast.walk] descends through them: an [If] is
    [StmtOther (body ++ orelse)], and the [ExceptHandler] of a [Try] or the
    [match_case] of a [Match], a node of its own between the statement and
    the handler's body, is again a [StmtOther] among the children. *)

Inductive expr : Type :=
| Name (id : string)
| Attribute (value : expr) (attr : string)
| Call (func : expr) (args : list expr) (keywords : list (option string * expr))
| ExprOther.

Record ast_arg : Type := mk_arg { arg : string }.

Record arguments : Type := mk_arguments {
  posonlyargs : list ast_arg;
  args : list ast_arg;
  vararg : option ast_arg;
  kwonlyargs : list ast_arg;
  kw_defaults : list (option expr);
  kwarg : option ast_arg;
  defaults : list expr
}.

Record alias : Type := mk_alias { alias_name : string; asname : option string }.

Inductive stmt : Type :=
| FunctionDef (name : string) (fargs : arguments) (body : list stmt)
    (decorator_list : list expr)
| AsyncFunctionDef (name : string) (fargs : arguments) (body : list stmt)
    (decorator_list : list expr)
| ClassDef (name : string) (body : list stmt)
| Expr (value : expr)
| Import (names : list alias)
| ImportFrom (module : option string) (names : list alias) (level : nat)
| StmtOther (children : list stmt).

(** The signature without any parameter, [def f(): ...]. *)
Definition no_arguments : arguments :=
  mk_arguments [] [] None [] [] None [].

(** ** Paths *)

(** A [pathlib.Path] is the list of its [parts]; an absolute path starts with
    the part ["/"]. *)
Definition Path : Type := list string.

Definition path_name (p : Path) : string := List.last p EmptyString.

Definition path_str (p : Path) : string :=
  match p with
  | "/" :: rest => "/" +:+ Str.join "/" rest
  | _ => Str.join "/" p
  end.

(** ** Processes: printed lines and the way the run ends *)

Inductive outcome (A : Type) : Type :=
| Returned (a : A)
| SysExit (code : nat)
| Uncaught (exc : string).
Arguments Returned {A} a.
Arguments SysExit {A} code.
Arguments Uncaught {A} exc.

(** A computation prints lines and then returns, exits or dies of an
    exception nobody catches. *)
Definition proc (A : Type) : Type := list string * outcome A.

Definition stdout {A} (p : proc A) : list string := fst p.
Definition result {A} (p : proc A) : outcome A := snd p.

Definition ret {A} (a : A) : proc A := ([], Returned a).

Definition bind {A B} (p : proc A) (k : A -> proc B) : proc B :=
  match p with
  | (out, Returned a) => let '(out', r) := k a in (out ++ out', r)
  | (out, SysExit c) => (out, SysExit c)
  | (out, Uncaught e) => (out, Uncaught e)
  end.

#[export] Instance proc_ret : MRet proc := @ret.
#[export] Instance proc_bind : MBind proc := fun A B k p => bind p k.

Definition print (line : string) : proc unit := ([line], Returned tt).
Definition sys_exit {A} (code : nat) : proc A := ([], SysExit code).
Definition raise {A} (exc : string) : proc A := ([], Uncaught exc).

(** [if b: p]. *)
Definition when (b : bool) (p : proc unit) : proc unit :=
  if b then p else ret tt.

(** [for x in xs: body(x)]. *)
Fixpoint for_each {X} (xs : list X) (body : X -> proc unit) : proc unit :=
  match xs with
  | [] => ret tt
  | x :: xs' => body x ;; for_each xs' body
  end.

Definition cross : string := "❌".

(** [fail]: one line on standard output, then [sys.exit(1)]. *)
Definition fail (message : string) : proc unit :=
  print (cross +:+ " " +:+ message) ;; sys_exit 1.

(** ** The file system below the project root *)

(** A regular file carries the text [read_text] returns and the statement
    list of the module [ast.parse] builds from that text ([None] when the
    parser refuses the text and raises); the parser is an external
    collaborator.  [Special] is anything that is neither a regular file nor
    a directory.  The tree holds no symbolic links. *)
Inductive fsnode : Type :=
| File (text : string) (tree : option (list stmt))
| Dir (entries : list (string * fsnode))
| Special.

(** The directory [PROJECT_ROOT] and what it holds, in listing order.  A path
    is resolved name by name, the first entry of that name being taken; in a
    real directory the names are distinct. *)
Record world : Type := mk_world {
  PROJECT_ROOT : Path;
  listing : list (string * fsnode)
}.

Fixpoint assoc (key : string) (entries : list (string * fsnode)) : option fsnode :=
  match entries with
  | [] => None
  | (k, v) :: rest => if String.eqb k key then Some v else assoc key rest
  end.

Fixpoint lookup_rel (n : fsnode) (rel : Path) : option fsnode :=
  match rel with
  | [] => Some n
  | part :: rel' =>
      match n with
      | Dir entries =>
          match assoc part entries with
          | Some child => lookup_rel child rel'
          | None => None
          end
      | _ => None
      end
  end.

(** [p.relative_to(base)], [None] when [base] is no prefix of [p]. *)
Fixpoint relative_to (p base : Path) : option Path :=
  match base, p with
  | [], _ => Some p
  | b :: base', x :: p' => if String.eqb b x then relative_to p' base' else None
  | _ :: _, [] => None
  end.

Definition stat (w : world) (p : Path) : option fsnode :=
  match relative_to p (PROJECT_ROOT w) with
  | Some rel => lookup_rel (Dir (listing w)) rel
  | None => None
  end.

Definition path_exists (w : world) (p : Path) : bool :=
  match stat w p with Some _ => true | None => false end.

Definition is_dir (w : world) (p : Path) : bool :=
  match stat w p with Some (Dir _) => true | _ => false end.

Definition is_file (w : world) (p : Path) : bool :=
  match stat w p with Some (File _ _) => true | _ => false end.

Definition iterdir (w : world) (p : Path) : proc (list Path) :=
  match stat w p with
  | Some (Dir entries) => ret (List.map (fun e => p ++ [fst e]) entries)
  | Some _ => raise "NotADirectoryError"
  | None => raise "FileNotFoundError"
  end.

Definition read_text (w : world) (p : Path) : proc string :=
  match stat w p with
  | Some (File text _) => ret text
  | Some (Dir _) => raise "IsADirectoryError"
  | Some Special => raise "OSError"
  | None => raise "FileNotFoundError"
  end.

(** [ast.parse(p.read_text()).body].  The exception of a refused text is
    written [SyntaxError]; which exception the parser raises for it is not
    part of the model. *)
Definition ast_parse (w : world) (p : Path) : proc (list stmt) :=
  match stat w p with
  | Some (File _ (Some body)) => ret body
  | Some (File _ None) => raise "SyntaxError"
  | Some (Dir _) => raise "IsADirectoryError"
  | Some Special => raise "OSError"
  | None => raise "FileNotFoundError"
  end.

(** [p.glob('*' + suffix)]: the entries of the directory [p] whose name ends
    with [suffix]; nothing when [p] is no directory. *)
Definition glob (w : world) (p : Path) (suffix : string) : list Path :=
  match stat w p with
  | Some (Dir entries) =>
      List.map (fun e => p ++ [fst e])
        (List.filter (fun e => Str.endswith (fst e) suffix) entries)
  | _ => []
  end.

(** The paths below [base] whose name ends with [suffix]: the matches of a
    directory first, then those of its subdirectories, in listing order. *)
Fixpoint rglob_node (suffix : string) (base : Path) (n : fsnode) {struct n}
  : list Path :=
  match n with
  | Dir entries =>
      List.map (fun e => base ++ [fst e])
        (List.filter (fun e => Str.endswith (fst e) suffix) entries)
      ++ (fix below (es : list (string * fsnode)) : list Path :=
            match es with
            | [] => []
            | (nm, child) :: es' => rglob_node suffix (base ++ [nm]) child ++ below es'
            end) entries
  | _ => []
  end.

(** [p.rglob('*' + suffix)]. *)
Definition rglob (w : world) (p : Path) (suffix : string) : list Path :=
  match stat w p with
  | Some n => rglob_node suffix p n
  | None => []
  end.

Definition FLOWS_DIR (w : world) : Path :=
  PROJECT_ROOT w ++ ["app"; "outsource"; "flows"].

(** ** [check_structure] *)

Definition check_structure (w : world) : proc unit :=
  when (negb (path_exists w (FLOWS_DIR w)) || negb (is_dir w (FLOWS_DIR w)))
    (fail ("Не найдена директория flows: " +:+ path_str (FLOWS_DIR w))) ;;
  files ← iterdir w (FLOWS_DIR w);
  for_each files (fun file =>
    if negb (is_file w file) then ret tt
    else if String.eqb (path_name file) "__init__.py" then ret tt
    else when (negb (Str.endswith (path_name file) "_flow.py"))
           (fail ("Неверное имя файла flow: " +:+ path_name file
                  +:+ " (ожидается *_flow.py)"))) ;;
  print "✔ Структура папок корректна".

(** ** [check_run_method] and [check_flow_file] *)

Definition stmt_name (s : stmt) : string :=
  match s with
  | FunctionDef n _ _ _ | AsyncFunctionDef n _ _ _ | ClassDef n _ => n
  | _ => EmptyString
  end.

Definition is_ClassDef (s : stmt) : bool :=
  match s with ClassDef _ _ => true | _ => false end.

Definition is_AsyncFunctionDef (s : stmt) : bool :=
  match s with AsyncFunctionDef _ _ _ _ => true | _ => false end.

Definition is_FunctionDef (s : stmt) : bool :=
  match s with FunctionDef _ _ _ _ => true | _ => false end.

Definition stmt_args (s : stmt) : arguments :=
  match s with
  | FunctionDef _ a _ _ | AsyncFunctionDef _ a _ _ => a
  | _ => no_arguments
  end.

Definition stmt_decorator_list (s : stmt) : list expr :=
  match s with
  | FunctionDef _ _ _ ds | AsyncFunctionDef _ _ _ ds => ds
  | _ => []
  end.

(** [isinstance(item, (ast.FunctionDef, ast.AsyncFunctionDef)) and item.name == 'run']. *)
Definition is_run (item : stmt) : bool :=
  (is_FunctionDef item || is_AsyncFunctionDef item)
  && String.eqb (stmt_name item) "run".

(** One decorator of the list, as the generator inside [any] tests it. *)
Definition is_classmethod (d : expr) : bool :=
  match d with
  | Name id => String.eqb id "classmethod"
  | Attribute _ attr => String.eqb attr "classmethod"
  | _ => false
  end.

Definition msg_run_absent (file : Path) (cls : string) : string :=
  path_str file +:+ ": класс " +:+ cls +:+ " — отсутствует метод run()".
Definition msg_run_async (file : Path) (cls : string) : string :=
  path_str file +:+ ": метод run() в " +:+ cls +:+ " должен быть async".
Definition msg_run_classmethod (file : Path) (cls : string) : string :=
  path_str file +:+ ": метод run() в " +:+ cls +:+ " должен быть classmethod".
Definition msg_run_total_usage (file : Path) (cls : string) : string :=
  path_str file +:+ ": метод run() в " +:+ cls +:+ " "
  +:+ "должен принимать total_usage как keyword-only (*, total_usage=...)".
Definition msg_run_ok (file : Path) (cls : string) : string :=
  "✔ OK: " +:+ cls +:+ ".run() (" +:+ path_name file +:+ ")".

Definition check_run_method (class_node : stmt) (file : Path) : proc unit :=
  match List.find is_run (match class_node with ClassDef _ b => b | _ => [] end) with
  | None => fail (msg_run_absent file (stmt_name class_node))
  | Some run_method =>
      when (negb (is_AsyncFunctionDef run_method))
        (fail (msg_run_async file (stmt_name class_node))) ;;
      let has_classmethod := existsb is_classmethod (stmt_decorator_list run_method) in
      when (negb has_classmethod)
        (fail (msg_run_classmethod file (stmt_name class_node))) ;;
      let kwonly : gset string :=
        list_to_set (List.map arg (kwonlyargs (stmt_args run_method))) in
      when (negb (bool_decide ("total_usage" ∈ kwonly)))
        (fail (msg_run_total_usage file (stmt_name class_node))) ;;
      print (msg_run_ok file (stmt_name class_node))
  end.

Definition flow_classes_of (body : list stmt) : list stmt :=
  let classes := List.filter is_ClassDef body in
  List.filter (fun cls => Str.endswith (stmt_name cls) "Flow") classes.

Definition msg_flow_missing (file : Path) : string :=
  path_str file +:+ ": отсутствуют классы, имя которых заканчивается на 'Flow'".
Definition msg_flow_multiple (file : Path) (n : nat) : string :=
  path_str file +:+ ": в файле должно быть только один Flow-класс, найдено "
  +:+ Str.of_nat n.

(** The part of [check_flow_file] that follows [ast.parse]. *)
Definition check_flow_tree (body : list stmt) (file : Path) : proc unit :=
  let flow_classes := flow_classes_of body in
  when (Nat.eqb (length flow_classes) 0) (fail (msg_flow_missing file)) ;;
  when (Nat.ltb 1 (length flow_classes))
    (fail (msg_flow_multiple file (length flow_classes))) ;;
  match flow_classes with
  | flow_class :: _ => check_run_method flow_class file
  | [] => raise "IndexError"
  end.

Definition check_flow_file (w : world) (file : Path) : proc unit :=
  body ← ast_parse w file;
  check_flow_tree body file.

Definition check_flow_run_signature (w : world) : proc unit :=
  for_each (glob w (FLOWS_DIR w) "_flow.py") (check_flow_file w).

(** ** [check_project_structure] *)

(** [required_structure], in the insertion order of the dictionary. *)
Definition required_structure (w : world) : list (string * Path) :=
  [ ("app", PROJECT_ROOT w ++ ["app"]);
    ("app/outsource", PROJECT_ROOT w ++ ["app"; "outsource"]);
    ("app/outsource/flows", PROJECT_ROOT w ++ ["app"; "outsource"; "flows"]);
    ("app/consts.py", PROJECT_ROOT w ++ ["app"; "consts.py"]);
    ("demonstration", PROJECT_ROOT w ++ ["demonstration"]);
    ("demonstration/main.py", PROJECT_ROOT w ++ ["demonstration"; "main.py"]);
    ("eksmo_src", PROJECT_ROOT w ++ ["eksmo_src"]);
    (".pre-commit-config.yaml", PROJECT_ROOT w ++ [".pre-commit-config.yaml"]);
    ("pyproject.toml", PROJECT_ROOT w ++ ["pyproject.toml"]);
    ("README.md", PROJECT_ROOT w ++ ["README.md"]) ].

Definition check_project_structure (w : world) : proc unit :=
  for_each (required_structure w) (fun '(description, path) =>
    if Str.endswith description ".py"
       || Str.endswith description ".yaml"
       || Str.endswith description ".toml"
       || Str.endswith description ".md"
    then when (negb (is_file w path))
           (fail ("Отсутствует файл: " +:+ description
                  +:+ " (" +:+ path_str path +:+ ")"))
    else when (negb (is_dir w path))
           (fail ("Отсутствует директория: " +:+ description
                  +:+ " (" +:+ path_str path +:+ ")"))) ;;
  print "✔ Структура проекта корректна".

(** ** [check_demo_main] *)

Definition is_async_main (node : stmt) : bool :=
  is_AsyncFunctionDef node && String.eqb (stmt_name node) "main".

Definition is_sync_main (node : stmt) : bool :=
  is_FunctionDef node && String.eqb (stmt_name node) "main".

(** The test of the signature: the four fields the source reads. *)
Definition takes_arguments (a : arguments) : bool :=
  negb (Nat.eqb (length (args a)) 0)
  || negb (Nat.eqb (length (kwonlyargs a)) 0)
  || bool_decide (is_Some (vararg a))
  || bool_decide (is_Some (kwarg a)).

Definition is_name (id : string) (e : expr) : bool :=
  match e with Name id' => String.eqb id' id | _ => false end.

(** [asyncio.run]: an attribute [run] of the name [asyncio]. *)
Definition is_asyncio_run (e : expr) : bool :=
  match e with
  | Attribute value attr => String.eqb attr "run" && is_name "asyncio" value
  | _ => false
  end.

(** One turn of the loop over [tree.body[::-1]]: [true] is [calls_main = True;
    break], [false] goes on with the next statement. *)
Definition invokes_main (node : stmt) : bool :=
  match node with
  | Expr (Call func cargs _) =>
      if is_name "main" func then true
      else if is_asyncio_run func then
        match cargs with
        | Call inner_func _ _ :: _ => is_name "main" inner_func
        | _ => false
        end
      else false
  | _ => false
  end.

Fixpoint scan_calls (nodes : list stmt) : bool :=
  match nodes with
  | [] => false
  | node :: rest => if invokes_main node then true else scan_calls rest
  end.

Definition calls_main (body : list stmt) : bool := scan_calls (rev body).

Definition main_path (w : world) : Path :=
  PROJECT_ROOT w ++ ["demonstration"; "main.py"].

Definition msg_main_sync (p : Path) : string :=
  path_str p +:+ ": функция main() должна быть async".
Definition msg_main_absent (p : Path) : string :=
  path_str p +:+ ": отсутствует функция async def main()".
Definition msg_main_args (p : Path) : string :=
  path_str p +:+ ": функция main() не должна принимать аргументы".
Definition msg_main_not_called (p : Path) : string :=
  path_str p
  +:+ ": функция main() должна вызываться в конце файла (asyncio.run(main()))".
Definition msg_main_ok : string := "✔ demonstration/main.py корректен".

(** The part of [check_demo_main] that follows [ast.parse]. *)
Definition check_demo_tree (body : list stmt) (p : Path) : proc unit :=
  match List.find is_async_main body with
  | None =>
      for_each body (fun node => when (is_sync_main node) (fail (msg_main_sync p))) ;;
      fail (msg_main_absent p)
  | Some main_func =>
      when (takes_arguments (stmt_args main_func)) (fail (msg_main_args p)) ;;
      when (negb (calls_main body)) (fail (msg_main_not_called p)) ;;
      print msg_main_ok
  end.

Definition check_demo_main (w : world) : proc unit :=
  when (negb (is_file w (main_path w)))
    (fail ("Не найден demonstration/main.py (" +:+ path_str (main_path w) +:+ ")")) ;;
  body ← ast_parse w (main_path w);
  check_demo_tree body (main_path w).

(** ** [check_file_length] and [check_all_python_files_length] *)

Module Lines.

Definition byte (n : nat) : Ascii.ascii := Ascii.ascii_of_nat n.

(** The one-byte line boundaries of [str.splitlines] other than ["\r"]:
    LF, VT, FF, FS, GS, RS. *)
Definition is_break (c : Ascii.ascii) : bool :=
  let n := Ascii.nat_of_ascii c in
  Nat.eqb n 10 || Nat.eqb n 11 || Nat.eqb n 12
  || Nat.eqb n 28 || Nat.eqb n 29 || Nat.eqb n 30.

(** Puts one more byte in front of the line that is being read. *)
Definition push (c : Ascii.ascii) (ls : list string) : list string :=
  match ls with
  | [] => [String c EmptyString]
  | l :: ls' => String c l :: ls'
  end.

(** [text.splitlines()] on the UTF-8 bytes of [text]: besides the one-byte
    boundaries, CR and CR LF, NEL (C2 85) and the line and paragraph
    separators (E2 80 A8, E2 80 A9) end a line. *)
Fixpoint splitlines (text : string) : list string :=
  match text with
  | EmptyString => []
  | String c rest =>
      if is_break c then EmptyString :: splitlines rest
      else if Nat.eqb (Ascii.nat_of_ascii c) 13 then
        match rest with
        | String c1 rest1 =>
            if Nat.eqb (Ascii.nat_of_ascii c1) 10
            then EmptyString :: splitlines rest1
            else EmptyString :: splitlines rest
        | EmptyString => [EmptyString]
        end
      else
        match rest with
        | String c1 rest1 =>
            if Nat.eqb (Ascii.nat_of_ascii c) 194 && Nat.eqb (Ascii.nat_of_ascii c1) 133
            then EmptyString :: splitlines rest1
            else
              match rest1 with
              | String c2 rest2 =>
                  if Nat.eqb (Ascii.nat_of_ascii c) 226
                     && Nat.eqb (Ascii.nat_of_ascii c1) 128
                     && (Nat.eqb (Ascii.nat_of_ascii c2) 168
                         || Nat.eqb (Ascii.nat_of_ascii c2) 169)
                  then EmptyString :: splitlines rest2
                  else push c (splitlines rest)
              | EmptyString => push c (splitlines rest)
              end
        | EmptyString => push c (splitlines rest)
        end
  end.

(** [len(s)]: the code points of [s], the bytes that are no UTF-8
    continuation byte. *)
Fixpoint len (s : string) : nat :=
  match s with
  | EmptyString => 0
  | String c s' =>
      let n := Ascii.nat_of_ascii c in
      (if Nat.leb 128 n && Nat.ltb n 192 then 0 else 1) + len s'
  end.

(** [needle in hay]. *)
Fixpoint contains (hay needle : string) : bool :=
  String.prefix needle hay
  || match hay with
     | EmptyString => false
     | String _ hay' => contains hay' needle
     end.

End Lines.

Definition msg_too_long (file : Path) (n max_lines : nat) : string :=
  path_str file +:+ ": слишком большой файл (" +:+ Str.of_nat n
  +:+ " строк), лимит = " +:+ Str.of_nat max_lines.

Definition check_file_length (w : world) (file : Path) (max_lines : nat) : proc unit :=
  text ← read_text w file;
  let lines := Lines.splitlines text in
  when (Nat.ltb max_lines (length lines))
    (fail (msg_too_long file (length lines) max_lines)).

(** ["venv" in path.parts or "env" in path.parts]. *)
Definition in_virtualenv (path : Path) : bool :=
  bool_decide ("venv" ∈ path) || bool_decide ("env" ∈ path).

Definition check_all_python_files_length_with (w : world) (max_lines : nat) : proc unit :=
  for_each (rglob w (PROJECT_ROOT w) ".py") (fun path =>
    if in_virtualenv path then ret tt
    else check_file_length w path max_lines).

(** The call of [main], with the default [max_lines = 1000]. *)
Definition check_all_python_files_length (w : world) : proc unit :=
  check_all_python_files_length_with w 1000.

(** ** [check_app_directory_contents] *)

Definition allowed_files : gset string := {[ "consts.py"; "__init__.py" ]}.
Definition allowed_dirs : gset string := {[ "outsource" ]}.

Definition check_app_directory_contents (w : world) : proc unit :=
  let app_dir := PROJECT_ROOT w ++ ["app"] in
  when (negb (is_dir w app_dir))
    (fail ("Отсутствует директория app/ (" +:+ path_str app_dir +:+ ")")) ;;
  items ← iterdir w app_dir;
  for_each items (fun item =>
    if is_dir w item then
      when (negb (bool_decide (path_name item ∈ allowed_dirs)))
        (fail ("Недопустимая директория в app/: " +:+ path_name item
               +:+ " (разрешено только outsource/)"))
    else if is_file w item then
      when (negb (bool_decide (path_name item ∈ allowed_files)))
        (fail ("Недопустимый файл в app/: " +:+ path_name item
               +:+ " (разрешено только consts.py и __init__.py)"))
    else ret tt) ;;
  print "✔ Содержимое app/ корректно".

(** ** [check_app_imports] *)

(** [name.rfind(c)]. *)
Fixpoint rfind (c : Ascii.ascii) (s : string) : option nat :=
  match s with
  | EmptyString => None
  | String x s' =>
      match rfind c s' with
      | Some i => Some (S i)
      | None => if Ascii.eqb x c then Some 0 else None
      end
  end.

(** [PurePath.suffix]: from the last dot on, unless that dot is the first or
    the last character of the name. *)
Definition path_suffix (p : Path) : string :=
  let name := path_name p in
  match rfind Str.dot name with
  | Some i =>
      if Nat.ltb 0 i && Nat.ltb i (String.length name - 1)
      then String.substring i (String.length name - i) name
      else EmptyString
  | None => EmptyString
  end.

(** [PurePath.stem]: the name without its suffix. *)
Definition path_stem (p : Path) : string :=
  let name := path_name p in
  match rfind Str.dot name with
  | Some i =>
      if Nat.ltb 0 i && Nat.ltb i (String.length name - 1)
      then String.substring 0 i name
      else name
  | None => name
  end.

(** One turn of the loop that fills [local_modules]. *)
Definition add_local_module (w : world) (local_modules : gset string) (item : Path)
  : gset string :=
  if String.eqb (path_name item) "app" then local_modules
  else
    let with_dir :=
      if is_dir w item then local_modules ∪ {[ path_name item ]}
      else local_modules in
    if is_file w item && String.eqb (path_suffix item) ".py"
    then with_dir ∪ {[ path_stem item ]}
    else with_dir.

Definition collect_local_modules (w : world) (items : list Path) : gset string :=
  List.fold_left (add_local_module w) items ∅.

Definition allowed_full_import : string := "eksmo_src.eksmo_types".

(** [full_name.split(".")[0]]. *)
Definition top_module_of (full_name : string) : string :=
  List.hd EmptyString (Str.split Str.dot full_name).

Definition msg_import (py_file : Path) (full_name : string) : string :=
  path_str py_file +:+ ": запрещён импорт локального модуля '" +:+ full_name
  +:+ "'. " +:+ "Модуль app должен быть самодостаточным.".
Definition msg_import_from (py_file : Path) (full_module : string) : string :=
  path_str py_file +:+ ": запрещён импорт локального модуля '" +:+ full_module
  +:+ "' через 'from'. " +:+ "Модуль app должен быть самодостаточным.".

(** The test both branches share:
    [top_module in local_modules and top_module != "app"]. *)
Definition forbidden_root (local_modules : gset string) (full_name : string) : bool :=
  bool_decide (top_module_of full_name ∈ local_modules)
  && negb (String.eqb (top_module_of full_name) "app").

Definition check_import_node (local_modules : gset string) (py_file : Path)
    (node : stmt) : proc unit :=
  match node with
  | Import names =>
      for_each names (fun a =>
        let full_name := alias_name a in
        if String.eqb full_name allowed_full_import then ret tt
        else when (forbidden_root local_modules full_name)
               (fail (msg_import py_file full_name)))
  | ImportFrom module _ level =>
      if negb (Nat.eqb level 0) then ret tt
      else
        match module with
        | None => ret tt
        | Some full_module =>
            if String.eqb full_module allowed_full_import then ret tt
            else when (forbidden_root local_modules full_module)
                   (fail (msg_import_from py_file full_module))
        end
  | _ => ret tt
  end.

(** [ast.iter_child_nodes], restricted to the nodes that own statements. *)
Definition iter_child_nodes (s : stmt) : list stmt :=
  match s with
  | FunctionDef _ _ b _ | AsyncFunctionDef _ _ b _ | ClassDef _ b | StmtOther b => b
  | _ => []
  end.

Fixpoint stmt_size (s : stmt) : nat :=
  let list_size := fix list_size (l : list stmt) : nat :=
    match l with
    | [] => 0
    | x :: l' => stmt_size x + list_size l'
    end in
  match s with
  | FunctionDef _ _ b _ | AsyncFunctionDef _ _ b _ | ClassDef _ b | StmtOther b =>
      S (list_size b)
  | _ => 1
  end.

Fixpoint queue_size (todo : list stmt) : nat :=
  match todo with
  | [] => 0
  | x :: todo' => stmt_size x + queue_size todo'
  end.

(** The loop of [ast.walk]: pop the first node of the queue, put its children
    at the end, yield it.  Each turn removes one node of the tree, so
    [queue_size todo] turns empty the queue. *)
Fixpoint walk_queue (fuel : nat) (todo : list stmt) : list stmt :=
  match fuel, todo with
  | S fuel', node :: todo' => node :: walk_queue fuel' (todo' ++ iter_child_nodes node)
  | _, _ => []
  end.

(** The statements [ast.walk(tree)] yields for a module of body [body], in
    its breadth-first order. *)
Definition walk (body : list stmt) : list stmt := walk_queue (queue_size body) body.

Definition msg_imports_ok : string :=
  "✔ Импорты в app/ корректны — нет неразрешённых локальных зависимостей".

(** The loop over the files of [app/], for a given [local_modules]. *)
Definition scan_app_files (w : world) (local_modules : gset string)
    (py_files : list Path) : proc unit :=
  for_each py_files (fun py_file =>
    body ← ast_parse w py_file;
    for_each (walk body) (check_import_node local_modules py_file)).

Definition check_app_imports (w : world) : proc unit :=
  let app_dir := PROJECT_ROOT w ++ ["app"] in
  items ← iterdir w (PROJECT_ROOT w);
  let local_modules := collect_local_modules w items in
  scan_app_files w local_modules (rglob w app_dir ".py") ;;
  print msg_imports_ok.

(** ** [check_readme] and [main] *)

Section Validator.

(** [str.strip] and [str.lower] follow the Unicode tables of the interpreter;
    they are taken as given. *)
Variable str_strip : string -> string.
Variable str_lower : string -> string.

Definition install_keywords : list string :=
  ["установка"; "installation"; "setup"; "инсталляция"; "install"].

Definition run_keywords : list string :=
  ["запуск"; "run"; "usage"; "использование"; "демонстрация"].

Definition check_readme (w : world) : proc unit :=
  let readme_path := PROJECT_ROOT w ++ ["README.md"] in
  when (negb (is_file w readme_path))
    (fail ("Отсутствует README.md (" +:+ path_str readme_path +:+ ")")) ;;
  text ← read_text w readme_path;
  let content := str_strip text in
  when (String.eqb content EmptyString) (fail "README.md пустой") ;;
  when (negb (Str.startswith content "#"))
    (fail "README.md должен начинаться с заголовка (# Заголовок)") ;;
  let first_lines := take 15 (Lines.splitlines content) in
  when (negb (existsb (fun line => Nat.ltb 10 (Lines.len (str_strip line)))
                (List.filter (fun line => negb (Str.startswith line "#")) first_lines)))
    (fail "README.md должен содержать описание проекта сразу после заголовка") ;;
  when (negb (existsb (fun keyword =>
                 Lines.contains (str_lower content) (str_lower keyword))
                install_keywords))
    (fail ("README.md должен содержать секцию установки (например: "
           +:+ Str.dquote +:+ "Установка" +:+ Str.dquote +:+ ", "
           +:+ Str.dquote +:+ "Installation" +:+ Str.dquote +:+ ")")) ;;
  when (negb (existsb (fun keyword =>
                 Lines.contains (str_lower content) (str_lower keyword))
                run_keywords))
    (fail ("README.md должен содержать секцию запуска/демонстрации (например: "
           +:+ Str.dquote +:+ "Запуск" +:+ Str.dquote +:+ ", "
           +:+ Str.dquote +:+ "Демонстрация" +:+ Str.dquote +:+ ")")) ;;
  print "✔ README.md корректен".

Definition banner_start : string := "🔍 Запуск предвалидатора…".
Definition banner_success : string := "🎉 Все проверки успешно пройдены!".

Definition main (w : world) : proc unit :=
  print banner_start ;;
  check_project_structure w ;;
  check_app_directory_contents w ;;
  check_app_imports w ;;
  check_structure w ;;
  check_demo_main w ;;
  check_flow_run_signature w ;;
  check_readme w ;;
  check_all_python_files_length w ;;
  print banner_success.

End Validator.

(** The status the interpreter exits with: 0 when [main] returns, the
    argument of [sys.exit], 1 after an uncaught exception. *)
Definition exit_code {A} (p : proc A) : nat :=
  match result p with
  | Returned _ => 0
  | SysExit code => code
  | Uncaught _ => 1
  end.

(** ** Predicates used in the statements *)

(** A top-level class whose name ends with [Flow], as [check_flow_file]
    selects it. *)
Definition is_flow_class (s : stmt) : bool :=
  is_ClassDef s && Str.endswith (stmt_name s) "Flow".

(** A decoration that counts as [classmethod]: the bare name, or an attribute
    access that ends with it. *)
Definition classmethod_decoration (d : expr) : Prop :=
  d = Name "classmethod" \/ exists value, d = Attribute value "classmethod".

Definition has_classmethod_decoration (m : stmt) : Prop :=
  exists d, d ∈ stmt_decorator_list m /\ classmethod_decoration d.

Definition has_kwonly_total_usage (m : stmt) : Prop :=
  exists a, a ∈ kwonlyargs (stmt_args m) /\ arg a = "total_usage".

(** The characters of a string. *)
Fixpoint chars (s : string) : list Ascii.ascii :=
  match s with
  | EmptyString => []
  | String c s' => c :: chars s'
  end.

(** A dotted path the import rule forbids: not the allow-listed path, with a
    first segment that is a local module other than [app]. *)
Definition violating (local_modules : gset string) (full_name : string) : Prop :=
  full_name <> allowed_full_import
  /\ top_module_of full_name ∈ local_modules
  /\ top_module_of full_name <> "app".

(** An import statement the rule forbids: some path of a direct import, or the
    module of a from-import of level 0. *)
Definition flagged (local_modules : gset string) (node : stmt) : Prop :=
  match node with
  | Import names => exists a, a ∈ names /\ violating local_modules (alias_name a)
  | ImportFrom (Some full_module) _ 0 => violating local_modules full_module
  | _ => False
  end.

(** [inside s body]: the statement [s] occurs in the module of body [body],
    at top level or at any depth below. *)
Inductive inside : stmt -> list stmt -> Prop :=
| inside_here (s : stmt) (l : list stmt) : s ∈ l -> inside s l
| inside_child (s p : stmt) (l : list stmt) :
    p ∈ l -> inside s (iter_child_nodes p) -> inside s l.

(** A process that prints nothing unless it ends through [fail]. *)
Definition quiet (p : proc unit) : Prop :=
  p = ret tt \/ (exists exc, p = raise exc) \/ exists msg, p = fail msg.

(** The call shapes the loop of [check_demo_main] accepts: [main(...)], and
    [asyncio.run(main(...), ...)] with the call of [main] as first positional
    argument. *)
Definition direct_main_call (e : expr) : Prop :=
  exists cargs kws, e = Call (Name "main") cargs kws.

Definition asyncio_run_main_first (e : expr) : Prop :=
  exists inner_args inner_kws more kws,
    e = Call (Attribute (Name "asyncio") "run")
          (Call (Name "main") inner_args inner_kws :: more) kws.

(** The second shape in the words of the specification: the call of [main]
    is the sole positional argument of [asyncio.run]. *)
Definition asyncio_run_main_sole (e : expr) : Prop :=
  exists inner_args inner_kws kws,
    e = Call (Attribute (Name "asyncio") "run")
          [Call (Name "main") inner_args inner_kws] kws.

(** What [PROJECT_ROOT.iterdir()] yields. *)
Definition root_items (w : world) : list Path :=
  List.map (fun e => PROJECT_ROOT w ++ [fst e]) (listing w).

(** [contributes w item n]: the entry [item] of the root puts the name [n]
    into [local_modules]. *)
Definition contributes (w : world) (item : Path) (n : string) : Prop :=
  path_name item <> "app"
  /\ ((is_dir w item = true /\ n = path_name item)
      \/ (is_file w item = true /\ path_suffix item = ".py" /\ n = path_stem item)).

(** The set in the words of the specification: the names of the top-level
    directories and the stems of the top-level [.py] files, without the name
    [app]. *)
Definition local_modules_as_specified (w : world) (items : list Path) : gset string :=
  (list_to_set (List.map path_name (List.filter (is_dir w) items))
   ∪ list_to_set (List.map path_stem
       (List.filter (fun item => is_file w item && String.eqb (path_suffix item) ".py")
          items)))
  ∖ {[ "app" ]}.

(** [located n rel c]: the node [c] sits at the relative path [rel], which is
    not empty, below the directory [n]. *)
Inductive located : fsnode -> Path -> fsnode -> Prop :=
| located_entry (es : list (string * fsnode)) (nm : string) (c : fsnode) :
    (nm, c) ∈ es -> located (Dir es) [nm] c
| located_below (es : list (string * fsnode)) (nm : string) (d : fsnode)
    (rel : Path) (c : fsnode) :
    (nm, d) ∈ es -> located d rel c -> located (Dir es) (nm :: rel) c.

(** A regular file of at most [max_lines] lines. *)
Definition within_limit (w : world) (max_lines : nat) (p : Path) : Prop :=
  exists text tree,
    stat w p = Some (File text tree)
    /\ length (Lines.splitlines text) <= max_lines.

(** The nesting depth of a directory tree. *)
Fixpoint fsnode_depth (n : fsnode) : nat :=
  match n with
  | Dir es =>
      S ((fix deepest (es : list (string * fsnode)) : nat :=
            match es with
            | [] => 0
            | (_, c) :: es' => Nat.max (fsnode_depth c) (deepest es')
            end) es)
  | _ => 0
  end.

(** The eight checks in the order [main] calls them. *)
Definition checks (str_strip str_lower : string -> string) (w : world)
  : list (proc unit) :=
  [ check_project_structure w;
    check_app_directory_contents w;
    check_app_imports w;
    check_structure w;
    check_demo_main w;
    check_flow_run_signature w;
    check_readme str_strip str_lower w;
    check_all_python_files_length w ].

(** No line of [lines] is a line of [fail]. *)
Definition no_cross (lines : list string) : Prop :=
  Forall (fun line => Str.startswith line cross = false) lines.

(** A process that leaves through [sys.exit] has status 1 and has printed the
    line of [fail] last and only then; any other process has printed no such
    line. *)
Definition reports_once {A} (p : proc A) : Prop :=
  match result p with
  | SysExit code =>
      code = 1
      /\ exists lines msg,
           stdout p = lines ++ [cross +:+ " " +:+ msg] /\ no_cross lines
  | _ => no_cross (stdout p)
  end.

(** ** Sample inputs *)

Module Sample.

Definition file : Path := ["/"; "srv"; "proj"; "app"; "outsource"; "flows"; "pay_flow.py"].

(** [async def run(cls, *, total_usage=None)] under [@classmethod]. *)
Definition run_ok : stmt :=
  AsyncFunctionDef "run"
    (mk_arguments [] [mk_arg "cls"] None [mk_arg "total_usage"] [Some ExprOther] None [])
    [] [Name "classmethod"].

(** [def run(self, total_usage)]: synchronous, undecorated, positional. *)
Definition run_late : stmt :=
  FunctionDef "run"
    (mk_arguments [] [mk_arg "self"; mk_arg "total_usage"] None [] [] None [])
    [] [].

Definition helper : stmt :=
  FunctionDef "helper" (mk_arguments [] [mk_arg "self"] None [] [] None []) [] [].

(** [LocalModuleSet = {demonstration, eksmo_src}]. *)
Definition local_modules : gset string := {[ "demonstration"; "eksmo_src" ]}.

Definition app_file : Path := ["/"; "srv"; "proj"; "app"; "consts.py"].

End Sample.

Module Offenders.

(** [app/a.py] imports [eksmo_src.other] and [app/b.py] imports
    [demonstration.util]: two files, one violation each. *)
Definition a_py : fsnode := File "import eksmo_src.other" (Some [Import [mk_alias "eksmo_src.other" None]]).
Definition b_py : fsnode := File "import demonstration.util" (Some [Import [mk_alias "demonstration.util" None]]).

Definition project : world :=
  mk_world ["/"; "srv"; "proj"]
    [ ("app", Dir [("a.py", a_py); ("b.py", b_py)]);
      ("demonstration", Dir []);
      ("eksmo_src", Dir []) ].

Definition a_path : Path := ["/"; "srv"; "proj"; "app"; "a.py"].
Definition b_path : Path := ["/"; "srv"; "proj"; "app"; "b.py"].

End Offenders.

Module Demo.

Definition path : Path := ["/"; "srv"; "proj"; "demonstration"; "main.py"].

Definition asyncio_run (cargs : list expr) : expr :=
  Call (Attribute (Name "asyncio") "run") cargs [].

Definition async_main : stmt := AsyncFunctionDef "main" no_arguments [] [].

(** [async def main(): ...] followed by [asyncio.run(main(), debug)]. *)
Definition two_positional : list stmt :=
  [async_main; Expr (asyncio_run [Call (Name "main") [] []; Name "debug"])].

(** [async def main(): ...] followed by [asyncio.run(other())]. *)
Definition runs_other : list stmt :=
  [async_main; Expr (asyncio_run [Call (Name "other") [] []])].

(** [async def main(x, /): ...] followed by [asyncio.run(main())]. *)
Definition posonly_main : list stmt :=
  [AsyncFunctionDef "main" (mk_arguments [mk_arg "x"] [] None [] [] None []) [] [];
   Expr (asyncio_run [Call (Name "main") [] []])].

End Demo.

Module Shadow.

(** A project root that holds the package [app/] and a module [app.py]. *)
Definition project : world :=
  mk_world ["/"; "srv"; "proj"]
    [ ("app", Dir [("consts.py", File "X = 1" (Some [StmtOther []]))]);
      ("app.py", File "import app" (Some [Import [mk_alias "app" None]]));
      ("eksmo_src", Dir []) ].

End Shadow.

Module Lengths.

Definition newline : string := String (Ascii.ascii_of_nat 10) EmptyString.

(** [n] lines [x = 0]. *)
Fixpoint text_of_lines (n : nat) : string :=
  match n with
  | 0 => EmptyString
  | S n' => "x = 0" +:+ newline +:+ text_of_lines n'
  end.

Definition project : world :=
  mk_world ["/"; "srv"; "proj"]
    [ ("ok.py", File (text_of_lines 3) None);
      ("venv", Dir [("lib", Dir [("huge.py", File (text_of_lines 1500) None)])]);
      ("big.py", File (text_of_lines 1001) None) ].

(** The same files without [big.py]. *)
Definition project_venv_only : world :=
  mk_world ["/"; "srv"; "proj"]
    [ ("ok.py", File (text_of_lines 3) None);
      ("venv", Dir [("lib", Dir [("huge.py", File (text_of_lines 1500) None)])]) ].

(** A project that itself lies below a directory [env]. *)
Definition project_below_env : world :=
  mk_world ["/"; "home"; "env"; "proj"]
    [ ("big.py", File (text_of_lines 1001) None) ].

End Lengths.

Module Project.

(** A project that satisfies every rule. *)
Definition main_py : fsnode :=
  File "async def main(): ..."
    (Some [Import [mk_alias "asyncio" None]; Demo.async_main;
           Expr (Demo.asyncio_run [Call (Name "main") [] []])]).

Definition readme : fsnode :=
  File ("# Project" +:+ Lengths.newline
        +:+ "A validator for the layout of the project." +:+ Lengths.newline
        +:+ "## installation" +:+ Lengths.newline
        +:+ "## usage" +:+ Lengths.newline) None.

Definition tree_with (flow_class_body : list stmt) : list (string * fsnode) :=
  [ ("app", Dir
       [ ("__init__.py", File EmptyString (Some []));
         ("consts.py", File "LIMIT = 3" (Some [StmtOther []]));
         ("outsource", Dir
            [ ("flows", Dir
                 [ ("__init__.py", File EmptyString (Some []));
                   ("pay_flow.py",
                    File "class PayFlow: ..."
                      (Some [ImportFrom (Some "eksmo_src.eksmo_types")
                               [mk_alias "Usage" None] 0;
                             ClassDef "PayFlow" flow_class_body])) ]) ]) ]);
    ("demonstration", Dir [("main.py", main_py)]);
    ("eksmo_src", Dir [("eksmo_types.py", File "class Usage: ..." (Some [ClassDef "Usage" []]))]);
    (".pre-commit-config.yaml", File "repos: []" None);
    ("pyproject.toml", File "[project]" None);
    ("README.md", readme) ].

Definition complete : world :=
  mk_world ["/"; "srv"; "proj"] (tree_with [Sample.helper; Sample.run_ok]).

(** The same project with a synchronous [run]. *)
Definition sync_run : world :=
  mk_world ["/"; "srv"; "proj"] (tree_with [Sample.run_late]).

(** [str.strip] and [str.lower] on texts they leave unchanged. *)
Definition unchanged (s : string) : string := s.

End Project.

(** ** Further predicates *)

(** The paths [p.iterdir()] yields when [p] is a directory, and none
    otherwise. *)
Definition dir_items (w : world) (p : Path) : list Path :=
  match stat w p with
  | Some (Dir entries) => List.map (fun e => p ++ [fst e]) entries
  | _ => []
  end.

(** An entry of [required_structure] is there: a regular file when its
    description ends with [.py], [.yaml], [.toml] or [.md], a directory
    otherwise. *)
Definition present (w : world) (entry : string * Path) : bool :=
  if Str.endswith (fst entry) ".py"
     || Str.endswith (fst entry) ".yaml"
     || Str.endswith (fst entry) ".toml"
     || Str.endswith (fst entry) ".md"
  then is_file w (snd entry)
  else is_dir w (snd entry).

(** The message for an entry of [required_structure] that is not there. *)
Definition msg_missing (entry : string * Path) : string :=
  (if Str.endswith (fst entry) ".py"
      || Str.endswith (fst entry) ".yaml"
      || Str.endswith (fst entry) ".toml"
      || Str.endswith (fst entry) ".md"
   then "Отсутствует файл: "
   else "Отсутствует директория: ")
  +:+ fst entry +:+ " (" +:+ path_str (snd entry) +:+ ")".

(** A regular file whose text parses to the module body [body]. *)
Definition parses_to (w : world) (p : Path) (body : list stmt) : Prop :=
  exists text, stat w p = Some (File text (Some body)).

(** The shape [check_run_method] asks of the [run] member [m]. *)
Definition run_shape_ok (m : stmt) : Prop :=
  is_AsyncFunctionDef m = true
  /\ has_classmethod_decoration m
  /\ has_kwonly_total_usage m.

(** The byte [n] is the first byte of [s]. *)
Definition head_is (n : nat) (s : string) : bool :=
  match s with
  | String c _ => Nat.eqb (Ascii.nat_of_ascii c) n
  | EmptyString => false
  end.

Definition tail (s : string) : string :=
  match s with
  | String _ rest => rest
  | EmptyString => EmptyString
  end.

(** A line boundary of [str.splitlines] starts at the byte [c] that is
    followed by [rest]: LF, VT, FF, FS, GS, RS, CR, NEL (C2 85), or the line
    or paragraph separator (E2 80 A8, E2 80 A9). *)
Definition boundary_at (c : Ascii.ascii) (rest : string) : bool :=
  Lines.is_break c
  || Nat.eqb (Ascii.nat_of_ascii c) 13
  || (Nat.eqb (Ascii.nat_of_ascii c) 194 && head_is 133 rest)
  || (Nat.eqb (Ascii.nat_of_ascii c) 226 && head_is 128 rest
      && (head_is 168 (tail rest) || head_is 169 (tail rest))).

(** A line that holds no line boundary. *)
Fixpoint boundary_free (line : string) : bool :=
  match line with
  | EmptyString => true
  | String c rest => negb (boundary_at c rest) && boundary_free rest
  end.

(** The text of the lines [ls], each ended by a line feed. *)
Fixpoint unlines (ls : list string) : string :=
  match ls with
  | [] => EmptyString
  | l :: ls' => l +:+ Lengths.newline +:+ unlines ls'
  end.

(** [prints_on_return p lines]: when [p] returns, it has printed exactly
    [lines]. *)
Definition prints_on_return {A} (p : proc A) (lines : list string) : Prop :=
  forall a, result p = Returned a -> stdout p = lines.

(** The name of the first Flow class of a flow file. *)
Definition flow_class_name (w : world) (file : Path) : string :=
  match stat w file with
  | Some (File _ (Some body)) =>
      match flow_classes_of body with
      | flow_class :: _ => stmt_name flow_class
      | [] => EmptyString
      end
  | _ => EmptyString
  end.

Definition tick : string := "✔".

(** Every line of [lines] is a success marker. *)
Definition ticks (lines : list string) : Prop :=
  Forall (fun line => Str.startswith line tick = true) lines.

(** What a check may print: success markers, and after them the line of
    [fail] when it leaves with status 1. *)
Definition marks_only {A} (p : proc A) : Prop :=
  match result p with
  | SysExit code =>
      code = 1
      /\ exists lines msg, stdout p = lines ++ [cross +:+ " " +:+ msg] /\ ticks lines
  | _ => ticks (stdout p)
  end.

(** [first_violation w lm files f node]: in the order of the scan, the files
    of [files] one after the other and each module in the order of
    [ast.walk], [node] in the file [f] is the first import the rule forbids:
    the files before [f] parse and hold none, [f] parses, and no statement
    that [ast.walk] yields before [node] is one. *)
Definition first_violation (w : world) (lm : gset string) (files : list Path)
    (f : Path) (node : stmt) : Prop :=
  exists files_before later body nodes_before nodes_after,
    files = files_before ++ f :: later
    /\ (forall g, g ∈ files_before ->
          exists gbody,
            parses_to w g gbody
            /\ forall n, inside n gbody -> ~ flagged lm n)
    /\ parses_to w f body
    /\ walk body = nodes_before ++ node :: nodes_after
    /\ (forall n, n ∈ nodes_before -> ~ flagged lm n)
    /\ flagged lm node.
(** * Properties *)

(** ** Strings *)

Lemma endswith_unfold (s suffix : string) :
  Str.endswith s suffix
  = (String.eqb s suffix
     || match s with
        | EmptyString => false
        | String _ s' => Str.endswith s' suffix
        end).
Proof. by destruct s. Qed.

Lemma endswith_spec (s suffix : string) :
  Str.endswith s suffix = true <-> exists p, s = p +:+ suffix.
Proof.
  split.
  - induction s as [|c s IH]; rewrite endswith_unfold; intros H.
    + rewrite orb_false_r in H. apply String.eqb_eq in H. by exists EmptyString.
    + apply orb_true_iff in H as [H|H].
      * apply String.eqb_eq in H. by exists EmptyString.
      * destruct (IH H) as [p ->]. by exists (String c p).
  - intros [p ->]. induction p as [|c p IH].
    + change (EmptyString +:+ suffix) with suffix.
      rewrite endswith_unfold. by rewrite String.eqb_refl.
    + change (String c p +:+ suffix) with (String c (p +:+ suffix)).
      rewrite endswith_unfold. cbv match. rewrite IH. apply orb_true_r.
Qed.

Lemma eqb_string_true (a b : string) : String.eqb a b = true <-> a = b.
Proof. apply String.eqb_eq. Qed.

(** ** The process monad *)

Lemma bind_ret_l {A B} (a : A) (k : A -> proc B) : (ret a ≫= k) = k a.
Proof. unfold mbind, proc_bind, bind, ret. by destruct (k a). Qed.

Lemma bind_ret_r {A} (p : proc A) : (p ≫= ret) = p.
Proof.
  unfold mbind, proc_bind, bind, ret. destruct p as [out [a|c|e]]; simpl; try done.
  by rewrite app_nil_r.
Qed.

Lemma bind_assoc {A B C} (p : proc A) (k : A -> proc B) (h : B -> proc C) :
  ((p ≫= k) ≫= h) = (p ≫= fun a => k a ≫= h).
Proof.
  unfold mbind, proc_bind, bind. destruct p as [out [a|c|e]]; try done.
  destruct (k a) as [out1 [b|c|e]]; try done.
  destruct (h b) as [out2 r]. by rewrite app_assoc.
Qed.

Lemma fail_bind {B} (message : string) (k : unit -> proc B) :
  (fail message ≫= k) = ([cross +:+ " " +:+ message], SysExit 1).
Proof. reflexivity. Qed.

Lemma fail_eq (message : string) :
  fail message = ([cross +:+ " " +:+ message], SysExit 1).
Proof. reflexivity. Qed.

Lemma when_true (p : proc unit) : when true p = p.
Proof. reflexivity. Qed.

Lemma when_false (p : proc unit) : when false p = ret tt.
Proof. reflexivity. Qed.

Lemma raise_bind {A B} (exc : string) (k : A -> proc B) :
  (raise exc ≫= k) = raise exc.
Proof. reflexivity. Qed.

(** What a process that returns has printed, and what follows it. *)
Lemma bind_returned {A B} (out : list string) (a : A) (k : A -> proc B) :
  ((out, Returned a) ≫= k) = (out ++ stdout (k a), result (k a)).
Proof. unfold mbind, proc_bind, bind, stdout, result. by destruct (k a). Qed.

Lemma bind_result {A B} (p : proc A) (k : A -> proc B) :
  result (p ≫= k)
  = match result p with
    | Returned a => result (k a)
    | SysExit c => SysExit c
    | Uncaught e => Uncaught e
    end.
Proof.
  destruct p as [out [a|c|e]]; try done.
  by rewrite bind_returned.
Qed.

Lemma for_each_app {X} (xs ys : list X) (body : X -> proc unit) :
  for_each (xs ++ ys) body = (for_each xs body ;; for_each ys body).
Proof.
  induction xs as [|x xs IH]; cbn [for_each app].
  - by rewrite bind_ret_l.
  - rewrite IH. by rewrite bind_assoc.
Qed.

(** A loop whose turns all return without printing does nothing. *)
Lemma for_each_silent {X} (xs : list X) (body : X -> proc unit) :
  (forall x, x ∈ xs -> body x = ret tt) -> for_each xs body = ret tt.
Proof.
  induction xs as [|x xs IH]; intros H; cbn [for_each]; [done|].
  rewrite (H x) by apply list_elem_of_here. rewrite bind_ret_l.
  apply IH. intros y Hy. apply H. by apply list_elem_of_further.
Qed.

(** ** The Flow class of a flow file *)

Lemma flow_classes_of_filter (body : list stmt) :
  flow_classes_of body = List.filter is_flow_class body.
Proof.
  unfold flow_classes_of, is_flow_class.
  induction body as [|s body IH]; [done|].
  cbn [List.filter]. destruct (is_ClassDef s); cbn [List.filter andb].
  - destruct (Str.endswith (stmt_name s) "Flow"); by rewrite IH.
  - done.
Qed.

(** C6.  The search for the Flow class looks at the top-level statements of
    the module only, keeps a class exactly when its name ends with [Flow],
    reports the "missing" violation for no match, the "multiple" violation
    with the number of matches for two or more, and hands the single match
    over to the validation of [run]. *)
Theorem flow_class_search (body : list stmt) (file : Path) :
  flow_classes_of body = List.filter is_flow_class body
  /\ (forall cls, cls ∈ flow_classes_of body
        <-> cls ∈ body /\ exists n b p, cls = ClassDef n b /\ n = p +:+ "Flow")
  /\ check_flow_tree body file
     = match flow_classes_of body with
       | [] => fail (msg_flow_missing file)
       | [flow_class] => check_run_method flow_class file
       | _ :: _ :: _ =>
           fail (msg_flow_multiple file (length (flow_classes_of body)))
       end.
Proof.
  split; [apply flow_classes_of_filter|]. split.
  - intros cls. rewrite flow_classes_of_filter.
    rewrite !list_elem_of_In, filter_In. unfold is_flow_class.
    rewrite andb_true_iff, endswith_spec. split.
    + intros (Hin & Hc & p & Hp). split; [done|].
      destruct cls as [| |n b| | | |]; try discriminate.
      cbn [stmt_name] in Hp. by exists n, b, p.
    + intros (Hin & n & b & p & -> & ->). split; [done|]. split; [done|].
      by exists p.
  - unfold check_flow_tree.
    destruct (flow_classes_of body) as [|c [|c' l]]; try reflexivity.
    cbn [length Nat.eqb Nat.ltb Nat.leb when]. by rewrite !bind_ret_l.
Qed.

(** A class nested in another class or in a function is not seen. *)
Example nested_flow_class_ignored :
  check_flow_tree
    [ClassDef "Outer" [ClassDef "InnerFlow" [Sample.run_ok]];
     FunctionDef "make" no_arguments [ClassDef "LocalFlow" [Sample.run_ok]] []]
    Sample.file
  = fail (msg_flow_missing Sample.file).
Proof. reflexivity. Qed.

Example three_flow_classes :
  check_flow_tree
    [ClassDef "AFlow" []; ClassDef "Flow" []; Expr ExprOther; ClassDef "BFlow" []]
    Sample.file
  = fail (msg_flow_multiple Sample.file 3).
Proof. reflexivity. Qed.

(** ** The [run] method of a Flow class *)

Lemma is_run_spec (item : stmt) :
  is_run item = true
  <-> exists a b ds,
        item = FunctionDef "run" a b ds \/ item = AsyncFunctionDef "run" a b ds.
Proof.
  unfold is_run. split.
  - intros H. apply andb_true_iff in H as [Hk Hn]. apply String.eqb_eq in Hn.
    destruct item as [n a b ds|n a b ds| | | | |]; try discriminate;
      cbn [stmt_name] in Hn; subst n; exists a, b, ds; auto.
  - by intros (a & b & ds & [-> | ->]).
Qed.

Lemma find_first {A} (f : A -> bool) (pre : list A) (m : A) (post : list A) :
  f m = true -> existsb f pre = false ->
  List.find f (pre ++ m :: post) = Some m.
Proof.
  intros Hm. induction pre as [|x pre IH]; cbn [List.find app existsb].
  - by rewrite Hm.
  - intros H. apply orb_false_iff in H as [Hx Hpre]. rewrite Hx. by apply IH.
Qed.

Lemma find_none {A} (f : A -> bool) (l : list A) :
  existsb f l = false -> List.find f l = None.
Proof.
  induction l as [|x l IH]; cbn [List.find existsb]; [done|].
  intros H. apply orb_false_iff in H as [Hx Hl]. rewrite Hx. by apply IH.
Qed.

Lemma is_classmethod_spec (d : expr) :
  is_classmethod d = true <-> classmethod_decoration d.
Proof.
  unfold classmethod_decoration. split.
  - destruct d as [id|v attr| |]; cbn [is_classmethod]; try discriminate.
    + intros H. apply String.eqb_eq in H. left. by subst.
    + intros H. apply String.eqb_eq in H. right. exists v. by subst.
  - intros [-> | [v ->]]; cbn [is_classmethod]; apply String.eqb_refl.
Qed.

Lemma existsb_classmethod (m : stmt) :
  existsb is_classmethod (stmt_decorator_list m) = true
  <-> has_classmethod_decoration m.
Proof.
  rewrite existsb_exists. unfold has_classmethod_decoration.
  split; intros (d & Hd & H); exists d; split;
    try (by apply list_elem_of_In); by apply is_classmethod_spec.
Qed.

Lemma kwonly_total_usage (m : stmt) :
  bool_decide ("total_usage" ∈
    (list_to_set (List.map arg (kwonlyargs (stmt_args m))) : gset string)) = true
  <-> has_kwonly_total_usage m.
Proof.
  rewrite bool_decide_eq_true, elem_of_list_to_set, list_elem_of_In, in_map_iff.
  unfold has_kwonly_total_usage.
  split; intros (a & H1 & H2); exists a; split; try done; by apply list_elem_of_In.
Qed.

(** C7.  The members of the class are searched in declaration order: the
    first function named [run] is the one that is validated, by the three
    tests on that member and on no other, whatever precedes or follows it,
    and a class without such a member gets the "absent" violation. *)
Theorem run_method_first_wins (cls : string) (file : Path) :
  (forall pre m post,
      is_run m = true ->
      existsb is_run pre = false ->
      let verdict := check_run_method (ClassDef cls (pre ++ m :: post)) file in
      verdict
      = (when (negb (is_AsyncFunctionDef m)) (fail (msg_run_async file cls)) ;;
         when (negb (existsb is_classmethod (stmt_decorator_list m)))
           (fail (msg_run_classmethod file cls)) ;;
         when (negb (bool_decide
                 ("total_usage" ∈
                  (list_to_set (List.map arg (kwonlyargs (stmt_args m))) : gset string))))
           (fail (msg_run_total_usage file cls)) ;;
         print (msg_run_ok file cls))
      /\ (result verdict = Returned tt
          <-> is_AsyncFunctionDef m = true
              /\ has_classmethod_decoration m
              /\ has_kwonly_total_usage m)
      /\ verdict = check_run_method (ClassDef cls [m]) file)
  /\ (forall body,
      existsb is_run body = false ->
      check_run_method (ClassDef cls body) file = fail (msg_run_absent file cls)).
Proof.
  split.
  - intros pre m post Hm Hpre verdict.
    assert (verdict
            = (when (negb (is_AsyncFunctionDef m)) (fail (msg_run_async file cls)) ;;
               when (negb (existsb is_classmethod (stmt_decorator_list m)))
                 (fail (msg_run_classmethod file cls)) ;;
               when (negb (bool_decide
                       ("total_usage" ∈
                        (list_to_set (List.map arg (kwonlyargs (stmt_args m)))
                         : gset string))))
                 (fail (msg_run_total_usage file cls)) ;;
               print (msg_run_ok file cls))) as E.
    { subst verdict. unfold check_run_method.
      by rewrite (find_first _ _ _ _ Hm Hpre). }
    split; [exact E|]. split.
    + rewrite E. rewrite <- existsb_classmethod, <- kwonly_total_usage.
      destruct (is_AsyncFunctionDef m); cbn [negb when];
        [rewrite bind_ret_l|by split; [|intros [? _]]].
      destruct (existsb is_classmethod (stmt_decorator_list m)); cbn [negb when];
        [rewrite bind_ret_l|by split; [|intros (_ & ? & _)]].
      destruct (bool_decide _); cbn [negb when];
        [rewrite bind_ret_l|by split; [|intros (_ & _ & ?)]].
      done.
    + rewrite E. unfold check_run_method. cbn [List.find]. by rewrite Hm.
  - intros body H. unfold check_run_method. by rewrite (find_none _ _ H).
Qed.

Lemma run_method_first_wins_witness :
  check_run_method
    (ClassDef "PayFlow" ([Sample.helper] ++ Sample.run_ok :: [Sample.run_late]))
    Sample.file
  = print (msg_run_ok Sample.file "PayFlow")
  /\ check_run_method
       (ClassDef "PayFlow" ([Sample.helper] ++ Sample.run_late :: [Sample.run_ok]))
       Sample.file
     = fail (msg_run_async Sample.file "PayFlow")
  /\ check_run_method (ClassDef "PayFlow" [Sample.helper]) Sample.file
     = fail (msg_run_absent Sample.file "PayFlow").
Proof.
  split; [|split].
  - exact (proj1 (proj1 (run_method_first_wins "PayFlow" Sample.file)
                    [Sample.helper] Sample.run_ok [Sample.run_late] eq_refl eq_refl)).
  - exact (proj1 (proj1 (run_method_first_wins "PayFlow" Sample.file)
                    [Sample.helper] Sample.run_late [Sample.run_ok] eq_refl eq_refl)).
  - apply (proj2 (run_method_first_wins "PayFlow" Sample.file)); reflexivity.
Defined.

(** C1.  For the [run] method found in a Flow class, the validation of its
    shape succeeds exactly when it is asynchronous, carries a decoration that
    is the name [classmethod] or an attribute access ending in [classmethod],
    and has [total_usage] among its keyword-only parameters (the other
    parameter lists are not looked at); the checks are made in this order
    and the first that fails decides the message. *)
Theorem run_shape_validation (cls : string) (body : list stmt) (file : Path) (m : stmt) :
  List.find is_run body = Some m ->
  let verdict := check_run_method (ClassDef cls body) file in
  (result verdict = Returned tt
     <-> is_AsyncFunctionDef m = true
         /\ has_classmethod_decoration m
         /\ has_kwonly_total_usage m)
  /\ (is_AsyncFunctionDef m = false -> verdict = fail (msg_run_async file cls))
  /\ (is_AsyncFunctionDef m = true -> ~ has_classmethod_decoration m ->
      verdict = fail (msg_run_classmethod file cls))
  /\ (is_AsyncFunctionDef m = true -> has_classmethod_decoration m ->
      ~ has_kwonly_total_usage m ->
      verdict = fail (msg_run_total_usage file cls))
  /\ (is_AsyncFunctionDef m = true -> has_classmethod_decoration m ->
      has_kwonly_total_usage m ->
      verdict = print (msg_run_ok file cls)).
Proof.
  intros Hfind verdict. subst verdict. unfold check_run_method.
  cbn [stmt_name]. rewrite Hfind.
  pose proof (existsb_classmethod m) as Hdec.
  pose proof (kwonly_total_usage m) as Hkw.
  destruct (is_AsyncFunctionDef m) eqn:Hasync; cbn [negb when];
    [rewrite bind_ret_l | by repeat split; try done; intros (? & _)].
  destruct (existsb is_classmethod (stmt_decorator_list m)) eqn:Hd; cbn [negb when].
  2:{ assert (~ has_classmethod_decoration m) as Hn
        by (intros H; apply Hdec in H; discriminate).
      repeat split; intros; first [done | tauto]. }
  rewrite bind_ret_l.
  assert (has_classmethod_decoration m) as Hcm by by apply Hdec.
  destruct (bool_decide _) eqn:Hk; cbn [negb when].
  2:{ assert (~ has_kwonly_total_usage m) as Hn
        by (intros H; apply Hkw in H; discriminate).
      repeat split; intros; first [done | tauto]. }
  rewrite bind_ret_l.
  assert (has_kwonly_total_usage m) by by apply Hkw.
  repeat split; intros; first [done | tauto].
Qed.

Lemma run_shape_validation_witness :
  result (check_run_method (ClassDef "PayFlow" [Sample.helper; Sample.run_ok]) Sample.file)
  = Returned tt
  <-> is_AsyncFunctionDef Sample.run_ok = true
      /\ has_classmethod_decoration Sample.run_ok
      /\ has_kwonly_total_usage Sample.run_ok.
Proof.
  exact (proj1 (run_shape_validation "PayFlow" [Sample.helper; Sample.run_ok]
                  Sample.file Sample.run_ok eq_refl)).
Defined.

(** [total_usage] as a positional parameter is not enough, and a qualified
    decoration is. *)
Example positional_total_usage_rejected :
  check_run_method
    (ClassDef "PayFlow"
       [AsyncFunctionDef "run"
          (mk_arguments [] [mk_arg "cls"; mk_arg "total_usage"] None [] [] None [])
          [] [Name "classmethod"]])
    Sample.file
  = fail (msg_run_total_usage Sample.file "PayFlow").
Proof. reflexivity. Qed.

Example qualified_classmethod_accepted :
  check_run_method
    (ClassDef "PayFlow"
       [AsyncFunctionDef "run"
          (mk_arguments [] [mk_arg "cls"] None [mk_arg "total_usage"] [None] None [])
          [] [ExprOther; Attribute (Name "tool") "classmethod"]])
    Sample.file
  = print (msg_run_ok Sample.file "PayFlow").
Proof. reflexivity. Qed.

(** ** The import boundary of [app/] *)

Lemma forbidden_root_spec (lm : gset string) (full : string) :
  forbidden_root lm full = true
  <-> top_module_of full ∈ lm /\ top_module_of full <> "app".
Proof.
  unfold forbidden_root. rewrite andb_true_iff, bool_decide_eq_true, negb_true_iff.
  split; intros [H1 H2]; split; try done.
  - intros E. rewrite E in H2. discriminate.
  - destruct (String.eqb_spec (top_module_of full) "app"); done.
Qed.

Lemma violating_dec (lm : gset string) (full : string) :
  (if String.eqb full allowed_full_import then false else forbidden_root lm full) = true
  <-> violating lm full.
Proof.
  unfold violating. destruct (String.eqb_spec full allowed_full_import) as [E|E].
  - split; [done | by intros [? _]].
  - rewrite forbidden_root_spec. tauto.
Qed.

Lemma for_each_scan {X} (l : list X) (body : X -> proc unit) (bad : X -> Prop) :
  (forall x, x ∈ l -> (bad x /\ exists msg, body x = fail msg) \/ (~ bad x /\ body x = ret tt)) ->
  ((exists x, x ∈ l /\ bad x) /\ exists msg, for_each l body = fail msg)
  \/ ((forall x, x ∈ l -> ~ bad x) /\ for_each l body = ret tt).
Proof.
  induction l as [|x l IH]; intros H; cbn [for_each].
  - right. split; [|done]. intros x Hx. by apply elem_of_nil in Hx.
  - destruct (H x) as [[Hb [msg E]]|[Hb E]]; [apply list_elem_of_here| |].
    + left. split; [exists x; split; [apply list_elem_of_here|done]|].
      exists msg. rewrite E. apply fail_bind.
    + rewrite E, bind_ret_l.
      destruct IH as [[(y & Hy & Hby) Hm]|[Hn E']].
      * intros y Hy. apply H. by apply list_elem_of_further.
      * left. split; [|done]. exists y. split; [by apply list_elem_of_further|done].
      * right. split; [|done]. intros y Hy. apply elem_of_cons in Hy as [->|Hy]; auto.
Qed.

Lemma check_import_node_cases (lm : gset string) (py_file : Path) (node : stmt) :
  (flagged lm node /\ exists msg, check_import_node lm py_file node = fail msg)
  \/ (~ flagged lm node /\ check_import_node lm py_file node = ret tt).
Proof.
  destruct node as [| | | |names|module names level|]; try (right; split; [by intros []|done]).
  - cbn [check_import_node flagged].
    destruct (for_each_scan names
      (fun a => if String.eqb (alias_name a) allowed_full_import then ret tt
                else when (forbidden_root lm (alias_name a))
                       (fail (msg_import py_file (alias_name a))))
      (fun a => violating lm (alias_name a))) as [[Hex Hm]|[Hn E]].
    + intros a _. pose proof (violating_dec lm (alias_name a)) as Hv.
      destruct (String.eqb (alias_name a) allowed_full_import).
      * right. split; [|done]. intros Hb. apply Hv in Hb. discriminate.
      * destruct (forbidden_root lm (alias_name a)).
        -- left. split; [by apply Hv|]. by eexists.
        -- right. split; [|done]. intros Hb. apply Hv in Hb. discriminate.
    + left. split; done.
    + right. split; [|done]. intros (a & Ha & Hv). by apply (Hn a).
  - cbn [check_import_node flagged]. destruct level as [|level]; cbn [Nat.eqb negb].
    2:{ right. split; [|done]. destruct module; intros H; exact H. }
    destruct module as [full|]; [|right; split; [by intros []|done]].
    pose proof (violating_dec lm full) as Hv.
    destruct (String.eqb full allowed_full_import).
    + right. split; [|done]. intros Hb. apply Hv in Hb. discriminate.
    + destruct (forbidden_root lm full).
      * left. split; [by apply Hv|]. by eexists.
      * right. split; [|done]. intros Hb. apply Hv in Hb. discriminate.
Qed.

Lemma queue_size_app (l1 l2 : list stmt) :
  queue_size (l1 ++ l2) = queue_size l1 + queue_size l2.
Proof. induction l1 as [|x l1 IH]; cbn [queue_size app]; [done|]. rewrite IH. lia. Qed.

Lemma stmt_size_children (s : stmt) :
  stmt_size s = S (queue_size (iter_child_nodes s)).
Proof.
  assert (forall l,
    (fix list_size (l : list stmt) : nat :=
       match l with
       | [] => 0
       | x :: l' => stmt_size x + list_size l'
       end) l = queue_size l) as E.
  { induction l as [|x l IH]; [done|]. cbn [queue_size]. by rewrite <- IH. }
  destruct s; cbn [stmt_size iter_child_nodes queue_size]; by rewrite ?E.
Qed.

Lemma inside_nil (s : stmt) : ~ inside s [].
Proof. intros H. inversion H as [? ? Hin|? ? ? Hin]; by apply elem_of_nil in Hin. Qed.

Lemma inside_app (s : stmt) (l1 l2 : list stmt) :
  inside s (l1 ++ l2) <-> inside s l1 \/ inside s l2.
Proof.
  split.
  - intros H. inversion H as [? ? Hin|? p ? Hin Hp]; subst;
      apply elem_of_app in Hin as [Hin|Hin].
    + left. by apply inside_here.
    + right. by apply inside_here.
    + left. by apply inside_child with p.
    + right. by apply inside_child with p.
  - intros [H|H]; inversion H as [? ? Hin|? p ? Hin Hp]; subst.
    + apply inside_here, elem_of_app. by left.
    + apply inside_child with p; [|done]. apply elem_of_app. by left.
    + apply inside_here, elem_of_app. by right.
    + apply inside_child with p; [|done]. apply elem_of_app. by right.
Qed.

Lemma inside_cons (s node : stmt) (todo : list stmt) :
  inside s (node :: todo) <-> s = node \/ inside s (todo ++ iter_child_nodes node).
Proof.
  rewrite inside_app. split.
  - intros H. inversion H as [? ? Hin|? p ? Hin Hp]; subst;
      apply elem_of_cons in Hin as [->|Hin].
    + by left.
    + right. left. by apply inside_here.
    + right. by right.
    + right. left. by apply inside_child with p.
  - intros [->|[H|H]].
    + apply inside_here, list_elem_of_here.
    + inversion H as [? ? Hin|? p ? Hin Hp]; subst.
      * by apply inside_here, list_elem_of_further.
      * apply inside_child with p; [by apply list_elem_of_further|done].
    + apply inside_child with node; [apply list_elem_of_here|done].
Qed.

Lemma walk_queue_spec (s : stmt) (fuel : nat) (todo : list stmt) :
  queue_size todo <= fuel ->
  s ∈ walk_queue fuel todo <-> inside s todo.
Proof.
  revert todo. induction fuel as [|fuel IH]; intros todo Hfuel.
  - destruct todo as [|node todo].
    + cbn [walk_queue]. split; intros H; [by apply elem_of_nil in H|by apply inside_nil in H].
    + cbn [queue_size] in Hfuel. rewrite stmt_size_children in Hfuel. lia.
  - destruct todo as [|node todo]; cbn [walk_queue].
    + split; intros H; [by apply elem_of_nil in H|by apply inside_nil in H].
    + rewrite elem_of_cons, inside_cons, IH; [done|].
      cbn [queue_size] in Hfuel. rewrite stmt_size_children in Hfuel.
      rewrite queue_size_app. lia.
Qed.

(** [ast.walk] reaches every statement of the module, at any depth, and
    nothing else. *)
Lemma walk_spec (s : stmt) (body : list stmt) :
  s ∈ walk body <-> inside s body.
Proof. apply walk_queue_spec. done. Qed.

Lemma bind_ret_tt (p : proc unit) : (p ;; ret tt) = p.
Proof.
  destruct p as [out [[]|c|e]]; try done.
  rewrite bind_returned. cbn. by rewrite app_nil_r.
Qed.

Lemma split_first (s : string) :
  exists seg rest,
    Str.split Str.dot s = seg :: rest
    /\ (Str.dot ∉ chars seg)
    /\ match rest with
       | [] => s = seg
       | _ :: _ => exists tail, s = seg +:+ "." +:+ tail
       end.
Proof.
  induction s as [|c s (seg & rest & E & Hdot & Hs)]; cbn [Str.split].
  - exists EmptyString, []. split; [done|]. split; [apply not_elem_of_nil|done].
  - destruct (Ascii.eqb_spec c Str.dot) as [->|Hc].
    + exists EmptyString, (Str.split Str.dot s). split; [done|].
      split; [apply not_elem_of_nil|]. rewrite E. by exists s.
    + rewrite E. exists (String c seg), rest. split; [done|]. split.
      * cbn [chars]. rewrite not_elem_of_cons. split; [congruence|done].
      * destruct rest as [|r rest]; [by rewrite Hs|].
        destruct Hs as [tail ->]. by exists tail.
Qed.

(** [top_module_of] is the part of the path before its first dot. *)
Lemma top_module_of_spec (full : string) :
  (Str.dot ∉ chars (top_module_of full))
  /\ (full = top_module_of full
      \/ exists tail, full = top_module_of full +:+ "." +:+ tail).
Proof.
  unfold top_module_of. destruct (split_first full) as (seg & rest & -> & Hdot & Hs).
  cbn [List.hd]. split; [done|]. destruct rest; [by left|by right].
Qed.

(** C2.  An import statement met anywhere in a file of [app/]: a from-import
    of nonzero level is never flagged; otherwise the allow-listed path
    [eksmo_src.eksmo_types] is accepted; otherwise the path is a violation
    exactly when its first dotted segment is in the local-module set and is
    not [app], so that a root outside the set is always accepted; the first
    segment is the part of the path before its first dot.  The scan
    of a module ends in a violation exactly when a flagged import occurs in
    it at some depth. *)
Theorem import_boundary_rule (lm : gset string) (py_file : Path) :
  (forall module names level,
      level <> 0 -> check_import_node lm py_file (ImportFrom module names level) = ret tt)
  /\ (forall full names,
      check_import_node lm py_file (ImportFrom (Some full) names 0)
      = if decide (full = allowed_full_import) then ret tt
        else if decide (top_module_of full ∈ lm /\ top_module_of full <> "app")
             then fail (msg_import_from py_file full)
             else ret tt)
  /\ (forall full asname,
      check_import_node lm py_file (Import [mk_alias full asname])
      = if decide (full = allowed_full_import) then ret tt
        else if decide (top_module_of full ∈ lm /\ top_module_of full <> "app")
             then fail (msg_import py_file full)
             else ret tt)
  /\ (forall node,
      (flagged lm node /\ exists msg, check_import_node lm py_file node = fail msg)
      \/ (~ flagged lm node /\ check_import_node lm py_file node = ret tt))
  /\ (forall body,
      let scan := for_each (walk body) (check_import_node lm py_file) in
      ((exists node, inside node body /\ flagged lm node) /\ exists msg, scan = fail msg)
      \/ ((forall node, inside node body -> ~ flagged lm node) /\ scan = ret tt))
  /\ (forall full, top_module_of full ∉ lm -> ~ violating lm full)
  /\ (forall full,
        (Str.dot ∉ chars (top_module_of full))
        /\ (full = top_module_of full
            \/ exists tail, full = top_module_of full +:+ "." +:+ tail)).
Proof.
  split; [|split; [|split; [|split; [|split; [|split]]]]];
    [| | | | | |apply top_module_of_spec].
  - intros module names [|level] H; [done|reflexivity].
  - intros full names. cbn [check_import_node Nat.eqb negb].
    pose proof (forbidden_root_spec lm full) as Hf.
    destruct (String.eqb_spec full allowed_full_import) as [E|E];
      destruct (decide (full = allowed_full_import)); try done.
    destruct (forbidden_root lm full); case_decide; try done.
    + exfalso. tauto.
    + destruct Hf as [_ Hf]. by specialize (Hf ltac:(done)).
  - intros full asname. cbn [check_import_node for_each alias_name].
    rewrite bind_ret_tt.
    pose proof (forbidden_root_spec lm full) as Hf.
    destruct (String.eqb_spec full allowed_full_import) as [E|E];
      destruct (decide (full = allowed_full_import)); try done.
    destruct (forbidden_root lm full); case_decide; try done.
    + exfalso. tauto.
    + destruct Hf as [_ Hf]. by specialize (Hf ltac:(done)).
  - apply check_import_node_cases.
  - intros body scan. subst scan.
    destruct (for_each_scan (walk body) (check_import_node lm py_file) (flagged lm))
      as [[(node & Hin & Hfl) Hm]|[Hn E]].
    + intros node _. apply check_import_node_cases.
    + left. split; [|done]. exists node. split; [by apply walk_spec|done].
    + right. split; [|done]. intros node Hin. apply Hn. by apply walk_spec.
  - intros full Hnot (_ & Hin & _). done.
Qed.

Lemma import_boundary_rule_witness :
  check_import_node Sample.local_modules Sample.app_file
    (ImportFrom None [mk_alias "sibling" None] 1) = ret tt
  /\ ~ violating Sample.local_modules "requests.adapters".
Proof.
  split.
  - apply (proj1 (import_boundary_rule Sample.local_modules Sample.app_file)). lia.
  - apply (proj1 (proj2 (proj2 (proj2 (proj2 (proj2
      (import_boundary_rule Sample.local_modules Sample.app_file))))))).
    vm_compute. intros H. discriminate H.
Defined.

(** The three imports of the specification's scenario. *)
Example import_allow_listed :
  check_import_node Sample.local_modules Sample.app_file
    (ImportFrom (Some "eksmo_src.eksmo_types") [mk_alias "Foo" None] 0) = ret tt.
Proof. reflexivity. Qed.

Example import_local_module :
  check_import_node Sample.local_modules Sample.app_file
    (Import [mk_alias "eksmo_src.other" None])
  = fail (msg_import Sample.app_file "eksmo_src.other").
Proof. reflexivity. Qed.

Example import_relative :
  check_import_node Sample.local_modules Sample.app_file
    (ImportFrom None [mk_alias "sibling" None] 1) = ret tt.
Proof. reflexivity. Qed.

Example import_own_package :
  check_import_node ({[ "app" ]} ∪ Sample.local_modules) Sample.app_file
    (Import [mk_alias "app.outsource.flows" None]) = ret tt.
Proof. reflexivity. Qed.

(** ** The import scan over the files of [app/] *)

Lemma relative_to_app (base rel : Path) : relative_to (base ++ rel) base = Some rel.
Proof.
  induction base as [|b base IH]; cbn [relative_to app]; [by destruct rel|].
  by rewrite String.eqb_refl.
Qed.

Lemma stat_root (w : world) : stat w (PROJECT_ROOT w) = Some (Dir (listing w)).
Proof.
  unfold stat. rewrite <- (app_nil_r (PROJECT_ROOT w)) at 1.
  by rewrite relative_to_app.
Qed.

Lemma iterdir_root (w : world) : iterdir w (PROJECT_ROOT w) = ret (root_items w).
Proof. unfold iterdir. by rewrite stat_root. Qed.

Lemma quiet_for_each {X} (l : list X) (body : X -> proc unit) :
  (forall x, quiet (body x)) -> quiet (for_each l body).
Proof.
  intros H. induction l as [|x l IH]; cbn [for_each]; [by left|].
  destruct (H x) as [E|[[exc E]|[msg E]]]; rewrite E.
  - by rewrite bind_ret_l.
  - right. left. by exists exc.
  - right. right. by exists msg.
Qed.

Lemma quiet_check_import_node (lm : gset string) (py_file : Path) (node : stmt) :
  quiet (check_import_node lm py_file node).
Proof.
  destruct (check_import_node_cases lm py_file node) as [[_ [msg E]]|[_ E]]; rewrite E.
  - right. right. by exists msg.
  - by left.
Qed.

Lemma quiet_scan_app_files (w : world) (lm : gset string) (files : list Path) :
  quiet (scan_app_files w lm files).
Proof.
  apply quiet_for_each. intros py_file. unfold ast_parse.
  destruct (stat w py_file) as [[text [body|]|es|]|];
    try (right; left; by eexists).
  rewrite bind_ret_l. apply quiet_for_each, quiet_check_import_node.
Qed.

Lemma unflagged_silent (lm : gset string) (f : Path) (nodes : list stmt) :
  (forall n, n ∈ nodes -> ~ flagged lm n) ->
  for_each nodes (check_import_node lm f) = ret tt.
Proof.
  intros H. apply for_each_silent. intros n Hn.
  destruct (check_import_node_cases lm f n) as [[Hfl _]|[_ E]];
    [by destruct (H n Hn)|done].
Qed.

Lemma ast_parse_parses (w : world) (p : Path) (body : list stmt) :
  parses_to w p body -> ast_parse w p = ret body.
Proof. intros [text Hp]. unfold ast_parse. by rewrite Hp. Qed.

Lemma clean_file_silent (w : world) (lm : gset string) (g : Path) (body : list stmt) :
  parses_to w g body ->
  (forall node, inside node body -> ~ flagged lm node) ->
  (ast_parse w g ≫= fun body => for_each (walk body) (check_import_node lm g)) = ret tt.
Proof.
  intros Hp Hclean. rewrite (ast_parse_parses w g body Hp), bind_ret_l.
  apply unflagged_silent. intros node Hin. apply Hclean. by apply walk_spec.
Qed.

Lemma scan_first_violation (w : world) (lm : gset string) (files : list Path)
    (f : Path) (node : stmt) :
  first_violation w lm files f node ->
  scan_app_files w lm files = check_import_node lm f node
  /\ exists message, check_import_node lm f node = fail message.
Proof.
  intros (before & later & body & nb & na & -> & Hclean & Hp & Hwalk & Hnb & Hfl).
  destruct (check_import_node_cases lm f node) as [[_ [msg E]]|[Hn _]]; [|done].
  split; [|by exists msg].
  unfold scan_app_files. rewrite for_each_app, (for_each_silent before).
  - rewrite bind_ret_l. cbn [for_each].
    rewrite (ast_parse_parses w f body Hp), bind_ret_l.
    rewrite Hwalk, for_each_app, (unflagged_silent lm f nb Hnb).
    rewrite bind_ret_l. cbn [for_each]. by rewrite E.
  - intros g Hg. destruct (Hclean g Hg) as (gbody & Hgp & Hgc).
    by apply (clean_file_silent w lm g gbody).
Qed.

(** C5, as amended.  The import scan stops at the first violation: when, in
    the order of the scan, an import is the first one the rule forbids, the
    scan and the whole check end as the test of that import does, with its
    one message (for a direct import that of its first forbidden path) and
    status 1, whatever imports follow in the file and whatever files follow
    in the subtree. *)
Theorem import_scan_fail_fast (w : world) (lm : gset string) :
  (forall files f node,
      first_violation w lm files f node ->
      scan_app_files w lm files = check_import_node lm f node
      /\ exists message, check_import_node lm f node = fail message)
  /\ (forall f node,
      first_violation w (collect_local_modules w (root_items w))
        (rglob w (PROJECT_ROOT w ++ ["app"]) ".py") f node ->
      check_app_imports w
      = check_import_node (collect_local_modules w (root_items w)) f node)
  /\ (forall f apre a apost,
      (forall x, x ∈ apre -> ~ violating lm (alias_name x)) ->
      violating lm (alias_name a) ->
      check_import_node lm f (Import (apre ++ a :: apost))
      = fail (msg_import f (alias_name a)))
  /\ (forall f full names,
      violating lm full ->
      check_import_node lm f (ImportFrom (Some full) names 0)
      = fail (msg_import_from f full)).
Proof.
  split; [|split; [|split]].
  - apply scan_first_violation.
  - intros f node H.
    destruct (scan_first_violation w _ _ f node H) as [E [msg Em]].
    unfold check_app_imports. rewrite iterdir_root, bind_ret_l, E, Em.
    reflexivity.
  - intros f apre a apost Hpre Ha. cbn [check_import_node].
    rewrite for_each_app, (for_each_silent apre).
    + rewrite bind_ret_l. cbn [for_each].
      apply violating_dec in Ha.
      destruct (String.eqb (alias_name a) allowed_full_import); [done|].
      by rewrite Ha.
    + intros x Hx. pose proof (violating_dec lm (alias_name x)) as Hv.
      destruct (String.eqb (alias_name x) allowed_full_import); [done|].
      destruct (forbidden_root lm (alias_name x)); [|done].
      by destruct (Hpre x Hx); apply Hv.
  - intros f full names Hv. cbn [check_import_node Nat.eqb negb].
    apply violating_dec in Hv.
    destruct (String.eqb full allowed_full_import); [done|]. by rewrite Hv.
Qed.

Lemma import_scan_fail_fast_witness :
  check_app_imports Offenders.project
  = check_import_node
      (collect_local_modules Offenders.project (root_items Offenders.project))
      Offenders.a_path (Import [mk_alias "eksmo_src.other" None])
  /\ check_import_node Sample.local_modules Offenders.a_path
       (Import ([mk_alias "os" None] ++ mk_alias "eksmo_src.other" None
                :: [mk_alias "demonstration.util" None]))
     = fail (msg_import Offenders.a_path "eksmo_src.other").
Proof.
  split.
  - apply (proj1 (proj2 (import_scan_fail_fast Offenders.project Sample.local_modules))).
    exists [], [Offenders.b_path], [Import [mk_alias "eksmo_src.other" None]],
      [], [].
    split; [reflexivity|]. split; [intros g Hg; by apply elem_of_nil in Hg|].
    split; [by exists "import eksmo_src.other"|]. split; [reflexivity|].
    split; [intros n Hn; by apply elem_of_nil in Hn|].
    exists (mk_alias "eksmo_src.other" None). split; [apply list_elem_of_here|].
    apply violating_dec. vm_compute. reflexivity.
  - apply (proj1 (proj2 (proj2 (import_scan_fail_fast Offenders.project
                                   Sample.local_modules)))).
    + intros x Hx. apply list_elem_of_singleton in Hx as ->.
      intros Hv. apply violating_dec in Hv. vm_compute in Hv. discriminate Hv.
    + apply violating_dec. vm_compute. reflexivity.
Defined.

(** C5, as stated, fails: both files of [app/] hold a violation, and the
    whole check reports the one of [a.py] only. *)
Lemma import_scan_collects_counterexample :
  rglob Offenders.project (PROJECT_ROOT Offenders.project ++ ["app"]) ".py"
    = [Offenders.a_path; Offenders.b_path]
  /\ scan_app_files Offenders.project Sample.local_modules [Offenders.b_path]
     = fail (msg_import Offenders.b_path "demonstration.util")
  /\ check_app_imports Offenders.project
     = fail (msg_import Offenders.a_path "eksmo_src.other")
  /\ cross +:+ " " +:+ msg_import Offenders.b_path "demonstration.util"
     ∉ stdout (check_app_imports Offenders.project).
Proof.
  split; [reflexivity|]. split; [reflexivity|]. split; [vm_compute; reflexivity|].
  intros H. vm_compute in H. apply list_elem_of_singleton in H. discriminate H.
Qed.

(** ** The entry point [demonstration/main.py] *)

Lemma is_name_spec (id : string) (e : expr) : is_name id e = true <-> e = Name id.
Proof.
  destruct e as [id'| | |]; cbn [is_name]; try (split; discriminate).
  rewrite String.eqb_eq. split; congruence.
Qed.

Lemma is_asyncio_run_spec (e : expr) :
  is_asyncio_run e = true <-> e = Attribute (Name "asyncio") "run".
Proof.
  destruct e as [|value attr| |]; cbn [is_asyncio_run]; try (split; discriminate).
  rewrite andb_true_iff, String.eqb_eq, is_name_spec. split.
  - by intros [-> ->].
  - intros E. by injection E as -> ->.
Qed.

Lemma invokes_main_spec (node : stmt) :
  invokes_main node = true
  <-> exists e, node = Expr e /\ (direct_main_call e \/ asyncio_run_main_first e).
Proof.
  unfold direct_main_call, asyncio_run_main_first. split.
  - destruct node as [| | |e| | |]; try discriminate.
    destruct e as [| |func cargs kws|]; try discriminate.
    cbn [invokes_main]. intros H. exists (Call func cargs kws). split; [done|].
    destruct (is_name "main" func) eqn:Hn.
    + apply is_name_spec in Hn as ->. left. by exists cargs, kws.
    + destruct (is_asyncio_run func) eqn:Hr; [|discriminate].
      apply is_asyncio_run_spec in Hr as ->.
      destruct cargs as [|[| |inner ia ik|] more]; try discriminate.
      apply is_name_spec in H as ->. right. by exists ia, ik, more, kws.
  - intros (e & -> & [(cargs & kws & ->)|(ia & ik & more & kws & ->)]); reflexivity.
Qed.

Lemma scan_calls_spec (nodes : list stmt) :
  scan_calls nodes = true <-> exists node, node ∈ nodes /\ invokes_main node = true.
Proof.
  induction nodes as [|node nodes IH]; cbn [scan_calls].
  - split; [discriminate|]. intros (n & Hn & _). by apply elem_of_nil in Hn.
  - destruct (invokes_main node) eqn:E.
    + split; [|done]. intros _. exists node. split; [apply list_elem_of_here|done].
    + rewrite IH. split.
      * intros (n & Hn & Hi). exists n. split; [by apply list_elem_of_further|done].
      * intros (n & Hn & Hi). apply elem_of_cons in Hn as [->|Hn]; [congruence|].
        by exists n.
Qed.

Lemma elem_of_rev {A} (x : A) (l : list A) : x ∈ rev l <-> x ∈ l.
Proof. by rewrite !list_elem_of_In, <- in_rev. Qed.

Lemma calls_main_spec (body : list stmt) :
  calls_main body = true
  <-> exists e, Expr e ∈ body /\ (direct_main_call e \/ asyncio_run_main_first e).
Proof.
  unfold calls_main. rewrite scan_calls_spec. split.
  - intros (node & Hin & Hi). apply invokes_main_spec in Hi as (e & -> & He).
    exists e. split; [|done]. exact (proj1 (elem_of_rev _ _) Hin).
  - intros (e & Hin & He). exists (Expr e). split; [exact (proj2 (elem_of_rev _ _) Hin)|].
    apply invokes_main_spec. by exists e.
Qed.

(** C3, as amended.  For a module with an asynchronous [main] without
    parameters, the invocation check looks through the top-level expression
    statements that are calls, from the last one backward; it accepts a call
    of the name [main], and a call of the attribute [run] of the name
    [asyncio] whose first positional argument is a call of the name [main]
    (a sole such argument is one case of it; what follows the first argument
    is not inspected), and it reports the violation when no top-level
    statement has one of these two shapes. *)
Theorem main_invocation_check (body : list stmt) (p : Path) (main_func : stmt) :
  List.find is_async_main body = Some main_func ->
  takes_arguments (stmt_args main_func) = false ->
  (calls_main body = true
   <-> exists e, Expr e ∈ body /\ (direct_main_call e \/ asyncio_run_main_first e))
  /\ check_demo_tree body p
     = (if calls_main body then print msg_main_ok else fail (msg_main_not_called p))
  /\ (forall e, asyncio_run_main_sole e -> asyncio_run_main_first e).
Proof.
  intros Hfind Hargs. split; [apply calls_main_spec|]. split.
  - unfold check_demo_tree. rewrite Hfind, Hargs. cbn [when]. rewrite bind_ret_l.
    destruct (calls_main body); cbn [negb when]; [by rewrite bind_ret_l|done].
  - intros e (ia & ik & kws & ->). by exists ia, ik, [], kws.
Qed.

Lemma main_invocation_check_witness :
  check_demo_tree Demo.runs_other Demo.path
  = (if calls_main Demo.runs_other then print msg_main_ok
     else fail (msg_main_not_called Demo.path)).
Proof.
  exact (proj1 (proj2 (main_invocation_check Demo.runs_other Demo.path
                         Demo.async_main eq_refl eq_refl))).
Defined.

(** C3, as stated, fails: in [asyncio.run(main(), debug)] the call of [main]
    is not the sole positional argument, no other statement invokes [main],
    and the check passes. *)
Lemma main_invocation_sole_counterexample :
  (forall e, Expr e ∈ Demo.two_positional ->
     ~ (direct_main_call e \/ asyncio_run_main_sole e))
  /\ check_demo_tree Demo.two_positional Demo.path = print msg_main_ok.
Proof.
  split; [|reflexivity].
  intros e Hin. unfold Demo.two_positional, Demo.async_main in Hin.
  apply elem_of_cons in Hin as [Hin|Hin]; [discriminate|].
  apply list_elem_of_singleton in Hin. injection Hin as ->.
  intros [(cargs & kws & H)|(ia & ik & kws & H)]; discriminate.
Qed.

Example trailing_asyncio_run_other_rejected :
  check_demo_tree Demo.runs_other Demo.path = fail (msg_main_not_called Demo.path).
Proof. reflexivity. Qed.

Example trailing_bare_main_accepted :
  check_demo_tree [Demo.async_main; Expr (Call (Name "main") [] [])] Demo.path
  = print msg_main_ok.
Proof. reflexivity. Qed.

Example trailing_asyncio_run_main_accepted :
  check_demo_tree
    [Demo.async_main; Expr (Demo.asyncio_run [Call (Name "main") [] []]);
     StmtOther []]
    Demo.path
  = print msg_main_ok.
Proof. reflexivity. Qed.

Lemma takes_arguments_spec (a : arguments) :
  takes_arguments a = false
  <-> args a = [] /\ kwonlyargs a = [] /\ vararg a = None /\ kwarg a = None.
Proof.
  unfold takes_arguments. destruct a as [po ar va ko kd kw df]; cbn.
  destruct ar, ko, va, kw; cbn; split; try done; intros (? & ? & ? & ?); done.
Qed.

(** C4: the code at the failing input.  [async def main(x, /)] has a
    parameter, yet the test of the signature, which never reads
    [posonlyargs], lets it through and the whole check succeeds. *)
Theorem posonly_main_accepted :
  takes_arguments (stmt_args (List.hd Demo.async_main Demo.posonly_main)) = false
  /\ check_demo_tree Demo.posonly_main Demo.path = print msg_main_ok
  /\ (forall po ar va ko kd kw df,
        takes_arguments (mk_arguments po ar va ko kd kw df)
        = takes_arguments (mk_arguments [] ar va ko kd kw df)).
Proof. split; [reflexivity|]. split; reflexivity. Qed.

Example main_with_optional_parameter_rejected :
  check_demo_tree
    [AsyncFunctionDef "main"
       (mk_arguments [] [mk_arg "verbose"] None [] [] None [ExprOther]) [] [];
     Expr (Demo.asyncio_run [Call (Name "main") [] []])]
    Demo.path
  = fail (msg_main_args Demo.path).
Proof. reflexivity. Qed.

(** ** Suffix and stem of a file name *)

Lemma append_nil_l (t : string) : EmptyString +:+ t = t.
Proof. reflexivity. Qed.

Lemma append_cons (c : Ascii.ascii) (s t : string) :
  String c s +:+ t = String c (s +:+ t).
Proof. reflexivity. Qed.

Lemma string_length_app (s t : string) :
  String.length (s +:+ t) = String.length s + String.length t.
Proof.
  induction s as [|c s IH]; rewrite ?append_nil_l, ?append_cons; [done|].
  cbn [String.length]. by rewrite IH.
Qed.

Lemma rfind_app (c : Ascii.ascii) (s t : string) :
  rfind c (s +:+ t)
  = match rfind c t with
    | Some i => Some (String.length s + i)
    | None => rfind c s
    end.
Proof.
  induction s as [|x s IH]; rewrite ?append_nil_l, ?append_cons.
  - cbn [String.length rfind Nat.add]. by destruct (rfind c t).
  - cbn [rfind String.length]. rewrite IH. by destruct (rfind c t).
Qed.

Lemma substring_prefix_app (s t : string) :
  String.substring 0 (String.length s) (s +:+ t) = s.
Proof.
  induction s as [|c s IH]; rewrite ?append_nil_l, ?append_cons;
    cbn [String.length String.substring].
  - by destruct t.
  - by rewrite IH.
Qed.

Lemma substring_suffix_app (s t : string) (n : nat) :
  String.substring (String.length s) n (s +:+ t) = String.substring 0 n t.
Proof.
  induction s as [|c s IH]; rewrite ?append_nil_l, ?append_cons;
    cbn [String.length String.substring]; done.
Qed.

Lemma substring_all (s : string) : String.substring 0 (String.length s) s = s.
Proof.
  induction s as [|d s IH]; cbn [String.length String.substring]; [done|].
  by rewrite IH.
Qed.

Lemma substring_split (i : nat) (s : string) :
  i <= String.length s ->
  s = String.substring 0 i s +:+ String.substring i (String.length s - i) s
  /\ String.length (String.substring 0 i s) = i.
Proof.
  revert i. induction s as [|c s IH]; intros i Hi.
  - cbn [String.length] in Hi. assert (i = 0) as -> by lia. done.
  - destruct i as [|i].
    + rewrite Nat.sub_0_r, substring_all.
      cbn [String.substring]. by rewrite append_nil_l.
    + cbn [String.length] in Hi. destruct (IH i ltac:(lia)) as [E L].
      cbn [String.substring String.length Nat.sub]. rewrite append_cons.
      split; [by rewrite <- E|by rewrite L].
Qed.

Lemma suffix_test_py (stem : string) :
  stem <> EmptyString ->
  Nat.ltb 0 (String.length stem + 0)
  && Nat.ltb (String.length stem + 0) (String.length (stem +:+ ".py") - 1) = true.
Proof.
  intros Hne. rewrite string_length_app.
  assert (0 < String.length stem) as Hpos
    by (destruct stem; [done|cbn [String.length]; lia]).
  change (String.length ".py") with 3.
  apply andb_true_iff. split; apply Nat.ltb_lt; lia.
Qed.

Lemma path_suffix_py (p : Path) :
  path_suffix p = ".py"
  <-> exists stem, stem <> EmptyString /\ path_name p = stem +:+ ".py".
Proof.
  unfold path_suffix. split.
  - destruct (rfind Str.dot (path_name p)) as [i|] eqn:Hr; [|done].
    destruct (Nat.ltb_spec 0 i) as [Hi|Hi]; cbn [andb]; [|done].
    destruct (Nat.ltb_spec i (String.length (path_name p) - 1)) as [Hl|Hl]; [|done].
    intros Hs. destruct (substring_split i (path_name p)) as [E L]; [lia|].
    exists (String.substring 0 i (path_name p)). rewrite Hs in E. split; [|done].
    intros E0. rewrite E0 in L. cbn [String.length] in L. lia.
  - intros (stem & Hne & ->).
    rewrite rfind_app. change (rfind Str.dot ".py") with (Some 0). cbv beta match.
    rewrite (suffix_test_py stem Hne).
    rewrite Nat.add_0_r, substring_suffix_app, string_length_app.
    replace (String.length stem + String.length ".py" - String.length stem) with 3
      by (change (String.length ".py") with 3; lia).
    reflexivity.
Qed.

Lemma path_stem_py (p : Path) (stem : string) :
  stem <> EmptyString -> path_name p = stem +:+ ".py" -> path_stem p = stem.
Proof.
  intros Hne E. unfold path_stem. rewrite E.
  rewrite rfind_app. change (rfind Str.dot ".py") with (Some 0). cbv beta match.
  rewrite (suffix_test_py stem Hne).
  rewrite Nat.add_0_r. apply substring_prefix_app.
Qed.

(** ** The local-module set *)

Lemma add_local_module_spec (w : world) (acc : gset string) (item : Path) (n : string) :
  n ∈ add_local_module w acc item <-> n ∈ acc \/ contributes w item n.
Proof.
  unfold add_local_module, contributes.
  destruct (String.eqb_spec (path_name item) "app") as [E|E].
  { split; [by left|]. intros [H|[H _]]; done. }
  destruct (is_dir w item) eqn:Hd;
    destruct (is_file w item) eqn:Hf; cbn [andb];
    try destruct (String.eqb_spec (path_suffix item) ".py") as [Es|Es];
    rewrite ?elem_of_union, ?elem_of_singleton; intuition congruence.
Qed.

Lemma collect_from (w : world) (items : list Path) (acc : gset string) (n : string) :
  n ∈ List.fold_left (add_local_module w) items acc
  <-> n ∈ acc \/ exists item, item ∈ items /\ contributes w item n.
Proof.
  revert acc. induction items as [|item items IH]; intros acc; cbn [List.fold_left].
  - split; [by left|]. intros [H|(i & Hi & _)]; [done|]. by apply elem_of_nil in Hi.
  - rewrite IH, add_local_module_spec. split.
    + intros [[H|H]|(i & Hi & Hc)].
      * by left.
      * right. exists item. split; [apply list_elem_of_here|done].
      * right. exists i. split; [by apply list_elem_of_further|done].
    + intros [H|(i & Hi & Hc)]; [by left; left|].
      apply elem_of_cons in Hi as [->|Hi]; [by left; right|].
      right. by exists i.
Qed.

Lemma collect_local_modules_spec (w : world) (items : list Path) (n : string) :
  n ∈ collect_local_modules w items
  <-> exists item, item ∈ items /\ contributes w item n.
Proof.
  unfold collect_local_modules. rewrite collect_from. split; [|by right].
  intros [H|H]; [|done]. by apply not_elem_of_empty in H.
Qed.

(** C8, as amended.  The local-module set is built from the listing of the
    project root: every entry other than the one named [app] contributes its
    name when it is a directory and its stem when it is a file with the
    suffix [.py] (a name [stem.py] with a stem that is not empty); the entry
    named [app] is the only one left out, so a module [app.py] next to the
    package still puts [app] into the set.  Imports of the package's own
    absolute path are never flagged, because the import test itself lets the
    root [app] through. *)
Theorem local_module_set (w : world) :
  check_app_imports w
  = (scan_app_files w (collect_local_modules w (root_items w))
       (rglob w (PROJECT_ROOT w ++ ["app"]) ".py") ;;
     print msg_imports_ok)
  /\ (forall n, n ∈ collect_local_modules w (root_items w)
        <-> exists item, item ∈ root_items w /\ path_name item <> "app"
            /\ ((is_dir w item = true /\ n = path_name item)
                \/ (is_file w item = true /\ path_suffix item = ".py"
                    /\ n = path_stem item)))
  /\ (forall item, path_suffix item = ".py"
        <-> exists stem, stem <> EmptyString
            /\ path_name item = stem +:+ ".py" /\ path_stem item = stem)
  /\ (forall local_modules py_file full names asname,
        top_module_of full = "app" ->
        check_import_node local_modules py_file (Import [mk_alias full asname]) = ret tt
        /\ check_import_node local_modules py_file (ImportFrom (Some full) names 0) = ret tt).
Proof.
  split; [|split; [|split]].
  - unfold check_app_imports. by rewrite iterdir_root, bind_ret_l.
  - intros n. apply collect_local_modules_spec.
  - intros item. rewrite path_suffix_py. split.
    + intros (stem & Hne & E). exists stem. by rewrite (path_stem_py item stem).
    + intros (stem & Hne & E & _). by exists stem.
  - intros lm py_file full names asname Htop.
    assert (forbidden_root lm full = false) as Hf.
    { unfold forbidden_root. rewrite Htop. apply andb_false_r. }
    cbn [check_import_node for_each alias_name Nat.eqb negb]. rewrite Hf.
    split; by destruct (String.eqb full allowed_full_import).
Qed.

Lemma local_module_set_witness :
  check_import_node Sample.local_modules Sample.app_file
    (Import [mk_alias "app.consts" None]) = ret tt
  /\ check_import_node Sample.local_modules Sample.app_file
       (ImportFrom (Some "app.consts") [] 0) = ret tt.
Proof.
  apply (proj2 (proj2 (proj2 (local_module_set Shadow.project)))). reflexivity.
Defined.

(** C8, as stated, fails: with [app.py] beside [app/] the set the code
    builds holds [app], which the names and stems without [app] do not. *)
Lemma local_module_set_counterexample :
  bool_decide ("app" ∈ collect_local_modules Shadow.project (root_items Shadow.project)) = true
  /\ bool_decide ("app" ∈ local_modules_as_specified Shadow.project
                     (root_items Shadow.project)) = false
  /\ collect_local_modules Shadow.project (root_items Shadow.project)
     <> local_modules_as_specified Shadow.project (root_items Shadow.project).
Proof.
  assert (bool_decide ("app" ∈ collect_local_modules Shadow.project
                         (root_items Shadow.project)) = true) as H1
    by (vm_compute; reflexivity).
  assert (bool_decide ("app" ∈ local_modules_as_specified Shadow.project
                         (root_items Shadow.project)) = false) as H2
    by (vm_compute; reflexivity).
  split; [done|]. split; [done|].
  apply bool_decide_eq_true in H1. apply bool_decide_eq_false in H2.
  intros E. rewrite E in H1. exact (H2 H1).
Qed.

(** ** Recursive enumeration of the files *)

Lemma rglob_node_unfold (suffix : string) (base : Path) (es : list (string * fsnode)) :
  rglob_node suffix base (Dir es)
  = List.map (fun e => base ++ [fst e])
      (List.filter (fun e => Str.endswith (fst e) suffix) es)
    ++ flat_map (fun e => rglob_node suffix (base ++ [fst e]) (snd e)) es.
Proof.
  cbn [rglob_node]. f_equal.
  induction es as [|[nm child] es IH]; [done|].
  cbn [flat_map fst snd]. by rewrite IH.
Qed.

Lemma path_name_app (base : Path) (nm : string) : path_name (base ++ [nm]) = nm.
Proof. unfold path_name. apply last_last. Qed.

Lemma located_nonempty (n : fsnode) (rel : Path) (c : fsnode) :
  located n rel c -> rel <> [].
Proof. by intros []. Qed.

Lemma path_name_rel (base rel : Path) :
  rel <> [] -> path_name (base ++ rel) = path_name rel.
Proof.
  intros H. unfold path_name.
  destruct (exists_last H) as (l & x & ->).
  by rewrite app_assoc, !last_last.
Qed.

Lemma path_name_cons (nm : string) (rel : Path) :
  rel <> [] -> path_name (nm :: rel) = path_name rel.
Proof. apply (path_name_rel [nm]). Qed.

Lemma rglob_node_complete (suffix : string) (n : fsnode) (rel : Path) (c : fsnode) :
  located n rel c ->
  forall base, Str.endswith (path_name rel) suffix = true ->
  base ++ rel ∈ rglob_node suffix base n.
Proof.
  induction 1 as [es nm c Hin|es nm d rel c Hin Hloc IH]; intros base Hs;
    rewrite rglob_node_unfold, elem_of_app.
  - left. rewrite list_elem_of_In, in_map_iff. exists (nm, c). split; [done|].
    apply filter_In. split; [by apply list_elem_of_In|done].
  - right. rewrite list_elem_of_In, in_flat_map. exists (nm, d).
    split; [by apply list_elem_of_In|]. cbn [fst snd].
    apply list_elem_of_In.
    replace (base ++ nm :: rel) with ((base ++ [nm]) ++ rel)
      by (by rewrite <- app_assoc).
    apply IH. rewrite path_name_cons in Hs; [done|by eapply located_nonempty].
Qed.

Lemma fsnode_depth_entry (es : list (string * fsnode)) (nm : string) (c : fsnode) :
  (nm, c) ∈ es -> fsnode_depth c < fsnode_depth (Dir es).
Proof.
  cbn [fsnode_depth]. induction es as [|[k v] es IH]; intros Hin.
  - by apply elem_of_nil in Hin.
  - apply elem_of_cons in Hin as [[= <- <-]|Hin]; [lia|].
    specialize (IH Hin). lia.
Qed.

Lemma rglob_node_sound (suffix : string) (n : fsnode) (base p : Path) :
  p ∈ rglob_node suffix base n ->
  exists rel c, located n rel c /\ p = base ++ rel
                /\ Str.endswith (path_name rel) suffix = true.
Proof.
  remember (fsnode_depth n) as k eqn:Hk. revert n base Hk.
  induction k as [k IH] using lt_wf_ind. intros n base -> Hp.
  destruct n as [| es |]; try by apply elem_of_nil in Hp.
  rewrite rglob_node_unfold, elem_of_app in Hp. destruct Hp as [Hp|Hp].
  - rewrite list_elem_of_In, in_map_iff in Hp. destruct Hp as ([nm c] & <- & Hf).
    apply filter_In in Hf as [Hin Hs]. cbn [fst] in *.
    exists [nm], c. split; [|done]. apply located_entry. by apply list_elem_of_In.
  - rewrite list_elem_of_In, in_flat_map in Hp. destruct Hp as ([nm d] & Hin & Hp).
    cbn [fst snd] in Hp. apply list_elem_of_In in Hin, Hp.
    destruct (IH (fsnode_depth d) (fsnode_depth_entry es nm d Hin) d (base ++ [nm])
                eq_refl Hp) as (rel & c & Hloc & -> & Hs).
    exists (nm :: rel), c. split; [by apply located_below with d|].
    split; [by rewrite <- app_assoc|].
    rewrite path_name_cons; [done|by eapply located_nonempty].
Qed.

Lemma rglob_root_spec (w : world) (suffix : string) (p : Path) :
  p ∈ rglob w (PROJECT_ROOT w) suffix
  <-> exists rel c, located (Dir (listing w)) rel c
                    /\ p = PROJECT_ROOT w ++ rel
                    /\ Str.endswith (path_name p) suffix = true.
Proof.
  unfold rglob. rewrite stat_root. split.
  - intros H. apply rglob_node_sound in H as (rel & c & Hloc & -> & Hs).
    exists rel, c. split; [done|]. split; [done|].
    rewrite path_name_rel; [done|by eapply located_nonempty].
  - intros (rel & c & Hloc & -> & Hs). eapply rglob_node_complete; [done|].
    rewrite path_name_rel in Hs; [done|by eapply located_nonempty].
Qed.

(** ** The length of the source files *)

Lemma in_virtualenv_spec (p : Path) :
  in_virtualenv p = true <-> "venv" ∈ p \/ "env" ∈ p.
Proof.
  unfold in_virtualenv. by rewrite orb_true_iff, !bool_decide_eq_true.
Qed.

Lemma check_file_length_cases (w : world) (file : Path) (max_lines : nat) :
  match stat w file with
  | Some (File text _) =>
      check_file_length w file max_lines
      = if Nat.ltb max_lines (length (Lines.splitlines text))
        then fail (msg_too_long file (length (Lines.splitlines text)) max_lines)
        else ret tt
  | _ => exists exc, check_file_length w file max_lines = raise exc
  end.
Proof.
  unfold check_file_length, read_text.
  destruct (stat w file) as [[text tree|es|]|]; try by eexists.
  by rewrite bind_ret_l.
Qed.

Lemma check_file_length_returns (w : world) (file : Path) (max_lines : nat) :
  result (check_file_length w file max_lines) = Returned tt
  <-> within_limit w max_lines file.
Proof.
  pose proof (check_file_length_cases w file max_lines) as H.
  unfold within_limit. destruct (stat w file) as [[text tree|es|]|].
  - rewrite H. destruct (Nat.ltb_spec max_lines (length (Lines.splitlines text))).
    + split; [done|]. intros (t' & tr' & [= <- <-] & Hle). lia.
    + split; [|done]. intros _. exists text, tree. split; [done|lia].
  - destruct H as [exc ->]. split; [done|]. by intros (? & ? & ? & _).
  - destruct H as [exc ->]. split; [done|]. by intros (? & ? & ? & _).
  - destruct H as [exc ->]. split; [done|]. by intros (? & ? & ? & _).
Qed.

Lemma check_file_length_within (w : world) (file : Path) (max_lines : nat) :
  within_limit w max_lines file -> check_file_length w file max_lines = ret tt.
Proof.
  intros (text & tree & Hs & Hle).
  pose proof (check_file_length_cases w file max_lines) as H. rewrite Hs in H.
  rewrite H. destruct (Nat.ltb_spec max_lines (length (Lines.splitlines text))); [lia|done].
Qed.

Lemma for_each_skip {X} (skip : X -> bool) (l : list X) (body : X -> proc unit) :
  for_each l (fun x => if skip x then ret tt else body x)
  = for_each (List.filter (fun x => negb (skip x)) l) body.
Proof.
  induction l as [|x l IH]; cbn [for_each List.filter]; [done|].
  destruct (skip x); cbn [negb for_each].
  - by rewrite bind_ret_l.
  - by rewrite IH.
Qed.

Lemma for_each_returned {X} (l : list X) (body : X -> proc unit) :
  result (for_each l body) = Returned tt
  <-> forall x, x ∈ l -> result (body x) = Returned tt.
Proof.
  induction l as [|x l IH]; cbn [for_each].
  - split; [|done]. intros _ x Hx. by apply elem_of_nil in Hx.
  - rewrite bind_result. split.
    + intros H x' Hx'. destruct (result (body x)) as [[]|c|e] eqn:E; try done.
      apply elem_of_cons in Hx' as [->|Hx']; [done|]. by apply IH.
    + intros H. rewrite (H x) by apply list_elem_of_here.
      apply IH. intros y Hy. apply H. by apply list_elem_of_further.
Qed.

(** C10.  The length check runs over every path below the project root, at
    any depth, whose name ends with [.py]; a path with [venv] or [env] among
    its components is skipped without being read, whatever its length, and
    the limit of 1000 lines is applied to every other one: the check returns
    exactly when all of these are regular files within the limit, and the
    first one beyond it ends the run with the violation. *)
Theorem length_limit_exemption (w : world) :
  let paths := rglob w (PROJECT_ROOT w) ".py" in
  (forall p, p ∈ paths
     <-> exists rel c, located (Dir (listing w)) rel c
                       /\ p = PROJECT_ROOT w ++ rel
                       /\ exists stem, path_name p = stem +:+ ".py")
  /\ (forall p, in_virtualenv p = true <-> "venv" ∈ p \/ "env" ∈ p)
  /\ check_all_python_files_length w
     = for_each (List.filter (fun p => negb (in_virtualenv p)) paths)
         (fun p => check_file_length w p 1000)
  /\ (result (check_all_python_files_length w) = Returned tt
      <-> forall p, p ∈ paths -> in_virtualenv p = false -> within_limit w 1000 p)
  /\ (forall pre p post text tree,
        paths = pre ++ p :: post ->
        (forall q, q ∈ pre -> in_virtualenv q = true \/ within_limit w 1000 q) ->
        in_virtualenv p = false ->
        stat w p = Some (File text tree) ->
        1000 < length (Lines.splitlines text) ->
        check_all_python_files_length w
        = fail (msg_too_long p (length (Lines.splitlines text)) 1000)).
Proof.
  intros paths. split; [|split; [|split; [|split]]].
  - intros p. subst paths. rewrite rglob_root_spec.
    split; intros (rel & c & Hloc & E & Hs); exists rel, c; (split; [done|]);
      (split; [done|]); by apply endswith_spec.
  - apply in_virtualenv_spec.
  - unfold check_all_python_files_length, check_all_python_files_length_with.
    apply for_each_skip.
  - unfold check_all_python_files_length, check_all_python_files_length_with.
    fold paths. rewrite for_each_returned. split.
    + intros H p Hp Hv. specialize (H p Hp). rewrite Hv in H.
      by apply check_file_length_returns.
    + intros H p Hp. destruct (in_virtualenv p) eqn:Hv; [done|].
      apply check_file_length_returns. by apply H.
  - intros pre p post text tree Hpaths Hpre Hv Hstat Hlong.
    unfold check_all_python_files_length, check_all_python_files_length_with.
    fold paths. rewrite Hpaths, for_each_app.
    rewrite (for_each_silent pre).
    2:{ intros q Hq. destruct (Hpre q Hq) as [-> | Hw]; [done|].
        destruct (in_virtualenv q); [done|]. by apply check_file_length_within. }
    rewrite bind_ret_l. cbn [for_each]. rewrite Hv.
    pose proof (check_file_length_cases w p 1000) as H. rewrite Hstat in H.
    rewrite H. apply Nat.ltb_lt in Hlong. rewrite Hlong. apply fail_bind.
Qed.

Lemma length_limit_exemption_witness :
  check_all_python_files_length Lengths.project
  = fail (msg_too_long ["/"; "srv"; "proj"; "big.py"] 1001 1000).
Proof.
  pose proof (proj2 (proj2 (proj2 (proj2 (length_limit_exemption Lengths.project))))
                [["/"; "srv"; "proj"; "ok.py"]] ["/"; "srv"; "proj"; "big.py"]
                [["/"; "srv"; "proj"; "venv"; "lib"; "huge.py"]]
                (Lengths.text_of_lines 1001) None) as H.
  assert (length (Lines.splitlines (Lengths.text_of_lines 1001)) = 1001) as E
    by (vm_compute; reflexivity).
  rewrite E in H. apply H.
  - vm_compute. reflexivity.
  - intros q Hq. apply list_elem_of_singleton in Hq as ->. right.
    exists (Lengths.text_of_lines 3), None. split; [reflexivity|].
    assert (length (Lines.splitlines (Lengths.text_of_lines 3)) = 3) as ->
      by (vm_compute; reflexivity).
    lia.
  - vm_compute. reflexivity.
  - reflexivity.
  - lia.
Defined.

(** A file below [venv] may have any length. *)
Example exempted_file_of_any_length :
  check_all_python_files_length Lengths.project_venv_only = ret tt.
Proof. vm_compute. reflexivity. Qed.

(** The components of [PROJECT_ROOT] itself count as well. *)
Example project_below_env_exempted :
  check_all_python_files_length Lengths.project_below_env = ret tt.
Proof. vm_compute. reflexivity. Qed.

(** ** One report at most *)

Lemma reports_ret {A} (a : A) : reports_once (ret a).
Proof. apply Forall_nil_2. Qed.

Lemma reports_raise {A} (exc : string) : reports_once (@raise A exc).
Proof. apply Forall_nil_2. Qed.

Lemma reports_print (line : string) :
  Str.startswith line cross = false -> reports_once (print line).
Proof. intros H. apply Forall_cons_2; [done|apply Forall_nil_2]. Qed.

Lemma reports_fail (message : string) : reports_once (fail message).
Proof. split; [done|]. exists [], message. split; [done|apply Forall_nil_2]. Qed.

Lemma reports_bind {A B} (p : proc A) (k : A -> proc B) :
  reports_once p -> (forall a, reports_once (k a)) -> reports_once (p ≫= k).
Proof.
  destruct p as [out [a|c|e]]; intros Hp Hk; try done.
  rewrite bind_returned. specialize (Hk a). unfold reports_once in *.
  cbn [result stdout fst snd] in *.
  destruct (k a) as [out' [b|c|e]]; cbn [result stdout fst snd] in *.
  - by apply Forall_app_2.
  - destruct Hk as (-> & lines & msg & -> & Hl). split; [done|].
    exists (out ++ lines), msg. split; [by rewrite app_assoc|by apply Forall_app_2].
  - by apply Forall_app_2.
Qed.

Lemma reports_when (b : bool) (p : proc unit) : reports_once p -> reports_once (when b p).
Proof. destruct b; [done|]. intros _. apply reports_ret. Qed.

Lemma reports_for_each {X} (l : list X) (body : X -> proc unit) :
  (forall x, reports_once (body x)) -> reports_once (for_each l body).
Proof.
  intros H. induction l as [|x l IH]; cbn [for_each]; [apply reports_ret|].
  apply reports_bind; [apply H|done].
Qed.

Lemma reports_iterdir (w : world) (p : Path) : reports_once (iterdir w p).
Proof. unfold iterdir. destruct (stat w p) as [[| |]|]; apply Forall_nil_2. Qed.

Lemma reports_read_text (w : world) (p : Path) : reports_once (read_text w p).
Proof. unfold read_text. destruct (stat w p) as [[| |]|]; apply Forall_nil_2. Qed.

Lemma reports_ast_parse (w : world) (p : Path) : reports_once (ast_parse w p).
Proof.
  unfold ast_parse. destruct (stat w p) as [[? [|]| |]|]; apply Forall_nil_2.
Qed.

Ltac reports_step :=
  first
    [ apply reports_fail
    | apply reports_ret
    | apply reports_raise
    | apply reports_iterdir
    | apply reports_read_text
    | apply reports_ast_parse
    | apply reports_print; reflexivity
    | apply reports_when
    | apply reports_for_each; intros ?
    | apply reports_bind; [|intros ?]
    | match goal with
      | |- reports_once (if ?b then _ else _) => destruct b
      | |- reports_once (match ?x with _ => _ end) => destruct x
      end ].

Ltac reports := repeat reports_step.

Lemma reports_check_project_structure (w : world) :
  reports_once (check_project_structure w).
Proof. unfold check_project_structure. reports. Qed.

Lemma reports_check_app_directory_contents (w : world) :
  reports_once (check_app_directory_contents w).
Proof. unfold check_app_directory_contents. reports. Qed.

Lemma reports_check_import_node (lm : gset string) (f : Path) (node : stmt) :
  reports_once (check_import_node lm f node).
Proof. unfold check_import_node. reports. Qed.

Lemma reports_check_app_imports (w : world) : reports_once (check_app_imports w).
Proof.
  unfold check_app_imports, scan_app_files. reports.
  apply reports_check_import_node.
Qed.

Lemma reports_check_structure (w : world) : reports_once (check_structure w).
Proof. unfold check_structure. reports. Qed.

Lemma reports_check_demo_main (w : world) : reports_once (check_demo_main w).
Proof. unfold check_demo_main, check_demo_tree. reports. Qed.

Lemma reports_check_run_method (cls : stmt) (file : Path) :
  reports_once (check_run_method cls file).
Proof. unfold check_run_method. reports. Qed.

Lemma reports_check_flow_run_signature (w : world) :
  reports_once (check_flow_run_signature w).
Proof.
  unfold check_flow_run_signature, check_flow_file, check_flow_tree. reports.
  all: apply reports_check_run_method.
Qed.

Lemma reports_check_readme (str_strip str_lower : string -> string) (w : world) :
  reports_once (check_readme str_strip str_lower w).
Proof. unfold check_readme. reports. Qed.

Lemma reports_check_all_python_files_length (w : world) :
  reports_once (check_all_python_files_length w).
Proof.
  unfold check_all_python_files_length, check_all_python_files_length_with,
    check_file_length.
  reports.
Qed.

Lemma reports_checks (str_strip str_lower : string -> string) (w : world) :
  Forall reports_once (checks str_strip str_lower w).
Proof.
  repeat apply Forall_cons_2; try apply Forall_nil_2.
  - apply reports_check_project_structure.
  - apply reports_check_app_directory_contents.
  - apply reports_check_app_imports.
  - apply reports_check_structure.
  - apply reports_check_demo_main.
  - apply reports_check_flow_run_signature.
  - apply reports_check_readme.
  - apply reports_check_all_python_files_length.
Qed.

(** ** The run of [main] *)

Section Main.

Variable str_strip str_lower : string -> string.

Lemma main_sequence (w : world) :
  main str_strip str_lower w
  = (print banner_start ;;
     for_each (checks str_strip str_lower w) (fun c => c) ;;
     print banner_success).
Proof.
  unfold main, checks. cbn [for_each].
  rewrite !bind_assoc. reflexivity.
Qed.

Lemma for_each_all_returned (cs : list (proc unit)) :
  (forall c, c ∈ cs -> result c = Returned tt) ->
  for_each cs (fun c => c) = (concat (List.map stdout cs), Returned tt).
Proof.
  induction cs as [|c cs IH]; intros H; cbn [for_each List.map concat]; [done|].
  rewrite IH by (intros c' Hc'; apply H; by apply list_elem_of_further).
  pose proof (H c (list_elem_of_here _ _)) as Hc.
  destruct c as [out r]. cbn [result snd] in Hc. subst r.
  by rewrite bind_returned.
Qed.

Lemma no_cross_concat (cs : list (proc unit)) :
  Forall reports_once cs ->
  (forall c, c ∈ cs -> result c = Returned tt) ->
  no_cross (concat (List.map stdout cs)).
Proof.
  induction 1 as [|c cs Hc Hcs IH]; intros H; cbn [List.map concat].
  - apply Forall_nil_2.
  - apply Forall_app_2.
    + unfold reports_once in Hc. by rewrite (H c (list_elem_of_here _ _)) in Hc.
    + apply IH. intros c' Hc'. apply H. by apply list_elem_of_further.
Qed.

Lemma reports_sequence (cs : list (proc unit)) :
  Forall reports_once cs -> reports_once (for_each cs (fun c => c)).
Proof.
  induction 1 as [|c cs Hc Hcs IH]; cbn [for_each]; [apply reports_ret|].
  by apply reports_bind.
Qed.

Lemma reports_main (w : world) : reports_once (main str_strip str_lower w).
Proof.
  rewrite main_sequence.
  apply reports_bind; [by apply reports_print|intros _].
  apply reports_bind; [apply reports_sequence, reports_checks|intros _].
  by apply reports_print.
Qed.

Lemma exit_code_zero (w : world) :
  exit_code (main str_strip str_lower w) = 0
  <-> result (main str_strip str_lower w) = Returned tt.
Proof.
  pose proof (reports_main w) as H. unfold reports_once in H. unfold exit_code.
  destruct (result (main str_strip str_lower w)) as [[]|c|e]; try done.
  destruct H as [-> _]. done.
Qed.

(** C9.  [main] runs the eight checks in the order project structure, app
    directory contents, app imports, flows directory structure, demo main,
    flow run signatures, README, file lengths.  The process ends with status
    0, and then with the success banner as last line and no line of [fail],
    exactly when every check returns; when a check is the first to report a
    violation, the output is the opening line, what the earlier checks
    printed and what this check printed, ending with the only line of
    [fail], the status is 1, and nothing of the later checks is run. *)
Theorem main_fail_fast (w : world) :
  let run := main str_strip str_lower w in
  let cs := checks str_strip str_lower w in
  run = (print banner_start ;; for_each cs (fun c => c) ;; print banner_success)
  /\ (exit_code run = 0 <-> forall c, c ∈ cs -> result c = Returned tt)
  /\ (exit_code run = 0 ->
      run = (banner_start :: concat (List.map stdout cs) ++ [banner_success],
             Returned tt)
      /\ no_cross (stdout run))
  /\ (forall pre c post,
        cs = pre ++ c :: post ->
        (forall c', c' ∈ pre -> result c' = Returned tt) ->
        result c = SysExit 1 ->
        run = (banner_start :: concat (List.map stdout pre) ++ stdout c, SysExit 1)
        /\ exit_code run = 1
        /\ exists lines msg,
             stdout run = lines ++ [cross +:+ " " +:+ msg] /\ no_cross lines).
Proof.
  intros run cs.
  assert (run = (print banner_start ;; for_each cs (fun c => c) ;;
                 print banner_success)) as Hrun by apply main_sequence.
  assert (exit_code run = 0 <-> forall c, c ∈ cs -> result c = Returned tt) as Hzero.
  { subst run. rewrite exit_code_zero, main_sequence.
    fold cs. rewrite !bind_result. cbn [result print snd].
    rewrite <- for_each_returned.
    destruct (result (for_each cs (fun c => c))) as [[]|c|e]; done. }
  split; [done|]. split; [done|]. split.
  - intros H0. pose proof (reports_main w) as Hr. fold run in Hr.
    pose proof (proj1 Hzero H0) as Hall. split.
    + rewrite Hrun. rewrite (for_each_all_returned cs Hall). reflexivity.
    + unfold reports_once in Hr. pose proof (proj1 (exit_code_zero w) H0) as H1.
      fold run in H1. by rewrite H1 in Hr.
  - intros pre c post Hcs Hpre Hc.
    assert (run = (banner_start :: concat (List.map stdout pre) ++ stdout c, SysExit 1))
      as E.
    { rewrite Hrun, Hcs, for_each_app, (for_each_all_returned pre Hpre).
      cbn [for_each]. destruct c as [out r]. cbn [result snd stdout fst] in *. subst r.
      rewrite bind_returned. reflexivity. }
    split; [done|]. split; [by rewrite E|].
    pose proof (reports_main w) as Hr. fold run in Hr. unfold reports_once in Hr.
    rewrite E in Hr |- *. cbn [result snd stdout fst] in *. by destruct Hr as [_ Hr].
Qed.

End Main.

Lemma main_fail_fast_witness :
  main Project.unchanged Project.unchanged Project.sync_run
  = (banner_start
       :: concat (List.map stdout
            [check_project_structure Project.sync_run;
             check_app_directory_contents Project.sync_run;
             check_app_imports Project.sync_run;
             check_structure Project.sync_run;
             check_demo_main Project.sync_run])
       ++ stdout (check_flow_run_signature Project.sync_run),
     SysExit 1)
  /\ exit_code (main Project.unchanged Project.unchanged Project.sync_run) = 1.
Proof.
  destruct (proj2 (proj2 (proj2
              (main_fail_fast Project.unchanged Project.unchanged Project.sync_run)))
              [check_project_structure Project.sync_run;
               check_app_directory_contents Project.sync_run;
               check_app_imports Project.sync_run;
               check_structure Project.sync_run;
               check_demo_main Project.sync_run]
              (check_flow_run_signature Project.sync_run)
              [check_readme Project.unchanged Project.unchanged Project.sync_run;
               check_all_python_files_length Project.sync_run])
    as (E & Hcode & _).
  - reflexivity.
  - intros c' Hc'.
    repeat (apply elem_of_cons in Hc' as [-> | Hc']; [vm_compute; reflexivity|]).
    by apply elem_of_nil in Hc'.
  - vm_compute. reflexivity.
  - split; [exact E|exact Hcode].
Defined.

Example complete_project_passes :
  main Project.unchanged Project.unchanged Project.complete
  = ([banner_start;
      "✔ Структура проекта корректна";
      "✔ Содержимое app/ корректно";
      msg_imports_ok;
      "✔ Структура папок корректна";
      msg_main_ok;
      "✔ OK: PayFlow.run() (pay_flow.py)";
      "✔ README.md корректен";
      banner_success],
     Returned tt).
Proof. vm_compute. reflexivity. Qed.

Example sync_run_stops_the_run :
  main Project.unchanged Project.unchanged Project.sync_run
  = ([banner_start;
      "✔ Структура проекта корректна";
      "✔ Содержимое app/ корректно";
      msg_imports_ok;
      "✔ Структура папок корректна";
      msg_main_ok;
      cross +:+ " "
      +:+ msg_run_async ["/"; "srv"; "proj"; "app"; "outsource"; "flows"; "pay_flow.py"]
            "PayFlow"],
     SysExit 1).
Proof. vm_compute. reflexivity. Qed.

(** * Further properties *)

(** ** The required structure *)

Lemma returned_bind {A B} (p : proc A) (k : A -> proc B) (b : B) :
  result (p ≫= k) = Returned b
  <-> exists a, result p = Returned a /\ result (k a) = Returned b.
Proof.
  rewrite bind_result. destruct (result p) as [a|c|e].
  - split; [by exists a|]. by intros (a' & [= <-] & H).
  - split; [done|]. by intros (a' & ? & _).
  - split; [done|]. by intros (a' & ? & _).
Qed.

Lemma returned_seq (p q : proc unit) :
  result (p ;; q) = Returned tt
  <-> result p = Returned tt /\ result q = Returned tt.
Proof.
  rewrite returned_bind. split.
  - by intros ([] & ? & ?).
  - intros [? ?]. by exists tt.
Qed.

Lemma returned_when_fail (b : bool) (message : string) :
  result (when b (fail message)) = Returned tt <-> b = false.
Proof. by destruct b. Qed.

Lemma returned_print (line : string) : result (print line) = Returned tt.
Proof. reflexivity. Qed.

(** A loop that fails at the first element with a defect, and is silent on
    the others, reports the first defect in the order of the list. *)
Lemma for_each_first_defect {X} (l : list X) (bad : X -> bool) (msg : X -> string) :
  for_each l (fun x => when (bad x) (fail (msg x)))
  = match List.find bad l with
    | Some x => fail (msg x)
    | None => ret tt
    end.
Proof.
  induction l as [|x l IH]; cbn [for_each List.find]; [done|].
  destruct (bad x); cbn [when]; [done|]. by rewrite bind_ret_l.
Qed.

Lemma find_none_iff {X} (f : X -> bool) (l : list X) :
  List.find f l = None <-> forall x, x ∈ l -> f x = false.
Proof.
  split.
  - intros H x Hx. apply list_elem_of_In in Hx. by apply (List.find_none _ _ H).
  - intros H. apply find_none. apply not_true_iff_false. intros Hex.
    apply existsb_exists in Hex as (x & Hx & Hfx).
    apply list_elem_of_In in Hx. rewrite (H x Hx) in Hfx. discriminate.
Qed.

Lemma iterdir_dir_items (w : world) (p : Path) :
  is_dir w p = true -> iterdir w p = ret (dir_items w p).
Proof.
  unfold is_dir, iterdir, dir_items. by destruct (stat w p) as [[| |]|].
Qed.

Lemma check_project_structure_find (w : world) :
  check_project_structure w
  = match List.find (fun entry => negb (present w entry)) (required_structure w) with
    | Some entry => fail (msg_missing entry)
    | None => print "✔ Структура проекта корректна"
    end.
Proof.
  unfold check_project_structure.
  replace (for_each (required_structure w) _)
    with (for_each (required_structure w)
            (fun entry => when (negb (present w entry)) (fail (msg_missing entry)))).
  - rewrite for_each_first_defect.
    destruct (List.find _ _); [done|by rewrite bind_ret_l].
  - reflexivity.
Qed.

(** X1.  [check_project_structure] returns exactly when the six required
    directories are directories and the four required files are regular
    files; otherwise it fails with the message of the first missing entry,
    in the order of [required_structure]. *)
Theorem project_structure_accepted (w : world) :
  (result (check_project_structure w) = Returned tt
   <-> is_dir w (PROJECT_ROOT w ++ ["app"]) = true
       /\ is_dir w (PROJECT_ROOT w ++ ["app"; "outsource"]) = true
       /\ is_dir w (PROJECT_ROOT w ++ ["app"; "outsource"; "flows"]) = true
       /\ is_file w (PROJECT_ROOT w ++ ["app"; "consts.py"]) = true
       /\ is_dir w (PROJECT_ROOT w ++ ["demonstration"]) = true
       /\ is_file w (PROJECT_ROOT w ++ ["demonstration"; "main.py"]) = true
       /\ is_dir w (PROJECT_ROOT w ++ ["eksmo_src"]) = true
       /\ is_file w (PROJECT_ROOT w ++ [".pre-commit-config.yaml"]) = true
       /\ is_file w (PROJECT_ROOT w ++ ["pyproject.toml"]) = true
       /\ is_file w (PROJECT_ROOT w ++ ["README.md"]) = true)
  /\ check_project_structure w
     = match List.find (fun entry => negb (present w entry)) (required_structure w) with
       | Some entry => fail (msg_missing entry)
       | None => print "✔ Структура проекта корректна"
       end.
Proof.
  split; [|apply check_project_structure_find].
  rewrite check_project_structure_find.
  transitivity (Forall (fun entry => present w entry = true) (required_structure w)).
  - rewrite Forall_forall.
    destruct (List.find _ _) as [entry|] eqn:E.
    + split; [done|]. intros H. apply find_some in E as [Hin Hbad].
      apply list_elem_of_In in Hin. rewrite (H entry Hin) in Hbad. discriminate.
    + split; [|done]. intros _ entry Hin. apply list_elem_of_In in Hin.
      apply (List.find_none _ _ E) in Hin. by apply negb_false_iff.
  - unfold required_structure. rewrite !Forall_cons, Forall_nil. tauto.
Qed.

(** ** The contents of [app/] and of the flows directory *)

Lemma is_dir_not_file (w : world) (p : Path) : is_dir w p = true -> is_file w p = false.
Proof. unfold is_dir, is_file. by destruct (stat w p) as [[| |]|]. Qed.

Lemma for_each_when_fail_returned {X} (l : list X) (bad : X -> bool) (msg : X -> string) :
  result (for_each l (fun x => when (bad x) (fail (msg x)))) = Returned tt
  <-> forall x, x ∈ l -> bad x = false.
Proof.
  rewrite for_each_returned. split; intros H x Hx.
  - by apply (returned_when_fail (bad x) (msg x)), H.
  - by apply returned_when_fail, H.
Qed.

(** X2.  [check_app_directory_contents] returns exactly when [app] is a
    directory in which every subdirectory is named [outsource] and every
    regular file is named [consts.py] or [__init__.py]; entries that are
    neither are not looked at, and no entry is required. *)
Theorem app_directory_contents_accepted (w : world) :
  let app_dir := PROJECT_ROOT w ++ ["app"] in
  result (check_app_directory_contents w) = Returned tt
  <-> is_dir w app_dir = true
      /\ forall item, item ∈ dir_items w app_dir ->
           (is_dir w item = true -> path_name item = "outsource")
           /\ (is_file w item = true ->
               path_name item = "consts.py" \/ path_name item = "__init__.py").
Proof.
  intros app_dir. unfold check_app_directory_contents. fold app_dir.
  destruct (is_dir w app_dir) eqn:Hd; cbn [negb when].
  2:{ split; [done|]. by intros [? _]. }
  rewrite bind_ret_l, (iterdir_dir_items w app_dir Hd), bind_ret_l.
  rewrite returned_seq, for_each_returned. split.
  - intros [H _]. split; [done|]. intros item Hin. specialize (H item Hin).
    split.
    + intros Hi. rewrite Hi in H. apply returned_when_fail, negb_false_iff in H.
      apply bool_decide_eq_true in H. unfold allowed_dirs in H.
      by apply elem_of_singleton in H.
    + intros Hf. destruct (is_dir w item) eqn:Hi.
      { apply is_dir_not_file in Hi. congruence. }
      rewrite Hf in H. apply returned_when_fail, negb_false_iff in H.
      apply bool_decide_eq_true in H. unfold allowed_files in H.
      apply elem_of_union in H as [H|H]; apply elem_of_singleton in H; auto.
  - intros [_ H]. split; [|done]. intros item Hin. destruct (H item Hin) as [H1 H2].
    destruct (is_dir w item) eqn:Hi.
    + apply returned_when_fail, negb_false_iff, bool_decide_eq_true.
      rewrite (H1 eq_refl). unfold allowed_dirs. by apply elem_of_singleton.
    + destruct (is_file w item) eqn:Hf; [|done].
      apply returned_when_fail, negb_false_iff, bool_decide_eq_true.
      unfold allowed_files. destruct (H2 eq_refl) as [-> | ->]; set_solver.
Qed.

(** X4.  [check_structure] returns exactly when the flows directory is a
    directory whose regular files are named [__init__.py] or end with
    [_flow.py]; it does not look at the names of subdirectories, and without
    the directory it fails with the message that names it. *)
Theorem flows_structure_accepted (w : world) :
  (result (check_structure w) = Returned tt
   <-> is_dir w (FLOWS_DIR w) = true
       /\ forall file, file ∈ dir_items w (FLOWS_DIR w) ->
            is_file w file = true ->
            path_name file = "__init__.py"
            \/ exists stem, path_name file = stem +:+ "_flow.py")
  /\ (is_dir w (FLOWS_DIR w) = false ->
      check_structure w
      = fail ("Не найдена директория flows: " +:+ path_str (FLOWS_DIR w))).
Proof.
  unfold check_structure. split.
  - destruct (is_dir w (FLOWS_DIR w)) eqn:Hd.
    2:{ rewrite orb_true_r. cbn [when]. split; [done|]. by intros [? _]. }
    assert (path_exists w (FLOWS_DIR w) = true) as ->.
    { unfold path_exists, is_dir in *. by destruct (stat w (FLOWS_DIR w)). }
    cbn [negb orb when].
    rewrite bind_ret_l, (iterdir_dir_items w _ Hd), bind_ret_l.
    rewrite returned_seq, for_each_returned. split.
    + intros [H _]. split; [done|]. intros file Hin Hf. specialize (H file Hin).
      rewrite Hf in H. cbn [negb] in H.
      destruct (String.eqb_spec (path_name file) "__init__.py") as [E|E]; [by left|].
      right. apply returned_when_fail, negb_false_iff in H. by apply endswith_spec.
    + intros [_ H]. split; [|done]. intros file Hin.
      destruct (is_file w file) eqn:Hf; cbn [negb]; [|done].
      destruct (String.eqb_spec (path_name file) "__init__.py") as [E|E]; [done|].
      apply returned_when_fail, negb_false_iff, endswith_spec.
      destruct (H file Hin Hf) as [?|?]; done.
  - intros Hd. rewrite Hd, orb_true_r. reflexivity.
Qed.

Lemma flows_structure_accepted_witness :
  check_structure Shadow.project
  = fail ("Не найдена директория flows: " +:+ path_str (FLOWS_DIR Shadow.project)).
Proof.
  apply (proj2 (flows_structure_accepted Shadow.project)). reflexivity.
Defined.

(** ** Acceptance of the syntax checks *)

Lemma returned_ast_parse (w : world) (p : Path) (k : list stmt -> proc unit) :
  result (ast_parse w p ≫= k) = Returned tt
  <-> exists body, parses_to w p body /\ result (k body) = Returned tt.
Proof.
  unfold parses_to, ast_parse.
  destruct (stat w p) as [[text [body|]|es|]|].
  - rewrite bind_ret_l. split.
    + intros H. exists body. split; [by exists text|done].
    + by intros (body' & (text' & [= <- <-]) & H').
  - split; [done|]. by intros (? & (? & ?) & _).
  - split; [done|]. by intros (? & (? & ?) & _).
  - split; [done|]. by intros (? & (? & ?) & _).
  - split; [done|]. by intros (? & (? & ?) & _).
Qed.

Lemma returned_import_scan (lm : gset string) (py_file : Path) (body : list stmt) :
  result (for_each (walk body) (check_import_node lm py_file)) = Returned tt
  <-> forall node, inside node body -> ~ flagged lm node.
Proof.
  rewrite for_each_returned. split.
  - intros H node Hin Hfl. apply walk_spec in Hin. specialize (H node Hin).
    destruct (check_import_node_cases lm py_file node) as [[_ [msg E]]|[Hn _]];
      [by rewrite E in H|done].
  - intros H node Hin. apply walk_spec in Hin.
    destruct (check_import_node_cases lm py_file node) as [[Hfl _]|[_ E]];
      [by destruct (H node Hin)|by rewrite E].
Qed.

(** X3.  [check_app_imports] returns exactly when every path below [app/]
    whose name ends with [.py] is a regular file that parses and holds, at
    any depth, no import the rule forbids for the local modules of the
    project root. *)
Theorem app_imports_accepted (w : world) :
  result (check_app_imports w) = Returned tt
  <-> forall py_file, py_file ∈ rglob w (PROJECT_ROOT w ++ ["app"]) ".py" ->
        exists body,
          parses_to w py_file body
          /\ forall node, inside node body ->
               ~ flagged (collect_local_modules w (root_items w)) node.
Proof.
  unfold check_app_imports. rewrite iterdir_root, bind_ret_l.
  rewrite returned_seq. unfold scan_app_files. rewrite for_each_returned.
  split.
  - intros [H _] py_file Hin. specialize (H py_file Hin).
    apply returned_ast_parse in H as (body & Hp & H). exists body. split; [done|].
    exact (proj1 (returned_import_scan _ _ _) H).
  - intros H. split; [|done]. intros py_file Hin.
    destruct (H py_file Hin) as (body & Hp & Hb).
    apply returned_ast_parse. exists body. split; [done|].
    exact (proj2 (returned_import_scan _ _ _) Hb).
Qed.

Lemma returned_check_run_method (cls : string) (cbody : list stmt) (file : Path) :
  result (check_run_method (ClassDef cls cbody) file) = Returned tt
  <-> exists m, List.find is_run cbody = Some m /\ run_shape_ok m.
Proof.
  unfold check_run_method, run_shape_ok.
  destruct (List.find is_run cbody) as [m|] eqn:Hfind.
  2:{ split; [done|]. by intros (? & ? & _). }
  rewrite !returned_seq, !returned_when_fail, !negb_false_iff.
  rewrite existsb_classmethod, kwonly_total_usage. split.
  - intros (Ha & Hd & Hk & _). by exists m.
  - intros (m' & [= <-] & Ha & Hd & Hk). done.
Qed.

Lemma flow_classes_are_classes (body : list stmt) (c : stmt) :
  c ∈ flow_classes_of body -> exists cls cbody, c = ClassDef cls cbody.
Proof.
  rewrite flow_classes_of_filter, list_elem_of_In, filter_In. unfold is_flow_class.
  intros [_ H]. apply andb_true_iff in H as [H _].
  destruct c; try discriminate. by eexists _, _.
Qed.

Lemma returned_check_flow_tree (body : list stmt) (file : Path) :
  result (check_flow_tree body file) = Returned tt
  <-> exists cls cbody m,
        flow_classes_of body = [ClassDef cls cbody]
        /\ List.find is_run cbody = Some m /\ run_shape_ok m.
Proof.
  unfold check_flow_tree.
  destruct (flow_classes_of body) as [|c [|c' l]] eqn:E; cbn [length Nat.eqb Nat.ltb Nat.leb when].
  - split; [done|]. by intros (? & ? & ? & ? & _).
  - rewrite !bind_ret_l.
    destruct (flow_classes_are_classes body c) as (cls & cbody & ->);
      [rewrite E; apply list_elem_of_here|].
    rewrite returned_check_run_method. split.
    + intros (m & ? & ?). by exists cls, cbody, m.
    + intros (cls' & cbody' & m & [= <- <-] & ? & ?). by exists m.
  - rewrite bind_ret_l. split; [done|]. by intros (? & ? & ? & ? & _).
Qed.

(** X8.  [check_flow_run_signature] returns exactly when every entry of the
    flows directory whose name ends with [_flow.py] is a regular file that
    parses, has exactly one top-level class with a name ending in [Flow], and
    the first [run] member of that class has the required shape. *)
Theorem flow_run_signatures_accepted (w : world) :
  result (check_flow_run_signature w) = Returned tt
  <-> forall file, file ∈ glob w (FLOWS_DIR w) "_flow.py" ->
        exists body cls cbody m,
          parses_to w file body
          /\ flow_classes_of body = [ClassDef cls cbody]
          /\ List.find is_run cbody = Some m
          /\ run_shape_ok m.
Proof.
  unfold check_flow_run_signature, check_flow_file. rewrite for_each_returned.
  split; intros H file Hin; specialize (H file Hin).
  - apply returned_ast_parse in H as (body & Hp & H).
    apply returned_check_flow_tree in H as (cls & cbody & m & ? & ? & ?).
    by exists body, cls, cbody, m.
  - destruct H as (body & cls & cbody & m & Hp & ? & ? & ?).
    apply returned_ast_parse. exists body. split; [done|].
    apply returned_check_flow_tree. by exists cls, cbody, m.
Qed.

(** X5.  [check_demo_main] returns exactly when [demonstration/main.py] is a
    regular file that parses, has a top-level asynchronous [main] whose first
    definition has no positional-or-keyword, keyword-only or variadic
    parameter, and has a top-level expression statement that calls [main]
    directly or as first argument of [asyncio.run]. *)
Theorem demo_main_accepted (w : world) :
  result (check_demo_main w) = Returned tt
  <-> exists body main_func,
        parses_to w (main_path w) body
        /\ List.find is_async_main body = Some main_func
        /\ args (stmt_args main_func) = []
        /\ kwonlyargs (stmt_args main_func) = []
        /\ vararg (stmt_args main_func) = None
        /\ kwarg (stmt_args main_func) = None
        /\ exists e, Expr e ∈ body /\ (direct_main_call e \/ asyncio_run_main_first e).
Proof.
  unfold check_demo_main.
  assert (forall body,
    result (check_demo_tree body (main_path w)) = Returned tt
    <-> exists main_func,
          List.find is_async_main body = Some main_func
          /\ takes_arguments (stmt_args main_func) = false
          /\ calls_main body = true) as Htree.
  { intros body. unfold check_demo_tree.
    destruct (List.find is_async_main body) as [m|].
    - rewrite !returned_seq, !returned_when_fail, negb_false_iff. split.
      + intros (? & ? & _). by exists m.
      + by intros (m' & [= <-] & ? & ?).
    - split; [|by intros (? & ? & _)].
      rewrite bind_result. by destruct (result _) as [[]| |]. }
  destruct (is_file w (main_path w)) eqn:Hf; cbn [negb when].
  - rewrite bind_ret_l, returned_ast_parse. split.
    + intros (body & Hp & H). apply Htree in H as (m & Hfind & Ha & Hc).
      apply takes_arguments_spec in Ha as (? & ? & ? & ?).
      apply calls_main_spec in Hc. by exists body, m.
    + intros (body & m & Hp & Hfind & ? & ? & ? & ? & Hc).
      exists body. split; [done|]. apply Htree. exists m. split; [done|].
      split; [by apply takes_arguments_spec|by apply calls_main_spec].
  - split; [done|]. intros (body & m & (text & Hp) & _).
    unfold is_file in Hf. by rewrite Hp in Hf.
Qed.

(** ** The search for [main] *)

Lemma find_existsb_false {X} (f : X -> bool) (l : list X) :
  existsb f l = false -> List.find f l = None.
Proof. apply find_none. Qed.

Lemma find_existsb_true {X} (f : X -> bool) (l : list X) :
  existsb f l = true -> exists x, List.find f l = Some x.
Proof.
  induction l as [|x l IH]; cbn [existsb List.find]; [done|].
  destruct (f x); [by exists x|done].
Qed.

(** X6.  Without a top-level asynchronous [main], the violation is "must be
    async" when a synchronous top-level [main] exists and "absent" otherwise;
    with one, the first asynchronous [main] in the module is the one whose
    signature is tested, whatever is defined before or after it. *)
Theorem demo_main_search (p : Path) :
  (forall body,
      existsb is_async_main body = false ->
      check_demo_tree body p
      = fail (if existsb is_sync_main body then msg_main_sync p
              else msg_main_absent p))
  /\ (forall pre m post,
      is_async_main m = true ->
      existsb is_async_main pre = false ->
      check_demo_tree (pre ++ m :: post) p
      = (when (takes_arguments (stmt_args m)) (fail (msg_main_args p)) ;;
         when (negb (calls_main (pre ++ m :: post))) (fail (msg_main_not_called p)) ;;
         print msg_main_ok)).
Proof.
  split.
  - intros body Hno. unfold check_demo_tree.
    rewrite (find_existsb_false _ _ Hno).
    rewrite (for_each_first_defect body is_sync_main (fun _ => msg_main_sync p)).
    destruct (existsb is_sync_main body) eqn:Hs.
    + by destruct (find_existsb_true _ _ Hs) as [x ->].
    + by rewrite (find_existsb_false _ _ Hs), bind_ret_l.
  - intros pre m post Hm Hpre. unfold check_demo_tree.
    by rewrite (find_first _ _ _ _ Hm Hpre).
Qed.

Lemma scan_calls_existsb (nodes : list stmt) :
  scan_calls nodes = existsb invokes_main nodes.
Proof.
  induction nodes as [|n nodes IH]; cbn [scan_calls existsb]; [done|].
  by destruct (invokes_main n).
Qed.

Lemma existsb_rev {X} (f : X -> bool) (l : list X) :
  existsb f (rev l) = existsb f l.
Proof.
  induction l as [|x l IH]; cbn [rev existsb]; [done|].
  rewrite existsb_app, IH. cbn [existsb]. rewrite orb_false_r. apply orb_comm.
Qed.

Lemma calls_main_existsb (body : list stmt) :
  calls_main body = existsb invokes_main body.
Proof. unfold calls_main. by rewrite scan_calls_existsb, existsb_rev. Qed.

(** X7.  The search for the invocation of [main] does not depend on the
    order of the statements, sees expression statements at top level only,
    so that a block such as an [if] contributes nothing whatever it holds,
    and stays satisfied when statements are added before or after. *)
Theorem invocation_top_level_only :
  (forall body, calls_main body = existsb invokes_main body)
  /\ (forall node, invokes_main node = true -> exists e, node = Expr e)
  /\ (forall pre children post,
        calls_main (pre ++ StmtOther children :: post) = calls_main (pre ++ post))
  /\ (forall pre body post,
        calls_main body = true -> calls_main (pre ++ body ++ post) = true).
Proof.
  split; [apply calls_main_existsb|]. split; [|split].
  - intros node H. apply invokes_main_spec in H as (e & -> & _). by exists e.
  - intros pre children post. rewrite !calls_main_existsb, !existsb_app.
    reflexivity.
  - intros pre body post H. rewrite !calls_main_existsb in *.
    rewrite !existsb_app, H. apply orb_true_iff. right. reflexivity.
Qed.

Lemma invocation_top_level_only_witness :
  calls_main ([Demo.async_main] ++ [Expr (Call (Name "main") [] [])] ++ [StmtOther []])
  = true.
Proof.
  apply (proj2 (proj2 (proj2 invocation_top_level_only))). reflexivity.
Defined.

Lemma demo_main_search_witness :
  check_demo_tree [FunctionDef "main" no_arguments [] []] Demo.path
  = fail (msg_main_sync Demo.path)
  /\ check_demo_tree
       ([Sample.helper]
        ++ AsyncFunctionDef "main"
             (mk_arguments [] [mk_arg "argv"] None [] [] None []) [] []
        :: [Demo.async_main; Expr (Call (Name "main") [] [])])
       Demo.path
     = fail (msg_main_args Demo.path).
Proof.
  split.
  - apply (proj1 (demo_main_search Demo.path)). reflexivity.
  - rewrite (proj2 (demo_main_search Demo.path)); reflexivity.
Defined.

(** ** Counting lines *)

Lemma splitlines_no_boundary (c : Ascii.ascii) (rest : string) :
  boundary_at c rest = false ->
  Lines.splitlines (String c rest) = Lines.push c (Lines.splitlines rest).
Proof.
  unfold boundary_at. intros H.
  apply orb_false_iff in H as [H Hsep].
  apply orb_false_iff in H as [H Hnel].
  apply orb_false_iff in H as [Hbr Hcr].
  cbn [Lines.splitlines]. rewrite Hbr, Hcr.
  destruct rest as [|c1 rest1]; [done|].
  cbn [head_is tail] in Hnel, Hsep. rewrite Hnel.
  destruct rest1 as [|c2 rest2]; [done|].
  cbn [head_is] in Hsep. by rewrite Hsep.
Qed.

Lemma head_is_newline (n : nat) (rest : string) :
  n <> 10 -> head_is n (Lengths.newline +:+ rest) = false.
Proof.
  intros H. unfold Lengths.newline. rewrite append_cons. cbn [head_is].
  apply Nat.eqb_neq. intros E. apply H. rewrite <- E. reflexivity.
Qed.

Lemma boundary_at_line (c : Ascii.ascii) (l rest : string) :
  boundary_at c (l +:+ Lengths.newline +:+ rest) = boundary_at c l.
Proof.
  unfold boundary_at. destruct l as [|c1 [|c2 l]].
  - rewrite append_nil_l, (head_is_newline 133), (head_is_newline 128) by lia.
    cbn [head_is]. by rewrite !andb_false_r.
  - rewrite append_cons, append_nil_l. cbn [head_is tail].
    by rewrite (head_is_newline 168), (head_is_newline 169) by lia.
  - by rewrite !append_cons.
Qed.

Lemma splitlines_line_free (l rest : string) :
  boundary_free l = true ->
  Lines.splitlines (l +:+ Lengths.newline +:+ rest) = l :: Lines.splitlines rest.
Proof.
  induction l as [|c l IH]; intros H.
  - reflexivity.
  - cbn [boundary_free] in H. apply andb_true_iff in H as [Hc Hl].
    apply negb_true_iff in Hc.
    rewrite append_cons, splitlines_no_boundary, (IH Hl); [done|].
    by rewrite boundary_at_line.
Qed.

Lemma splitlines_last_free (l : string) :
  boundary_free l = true -> l <> EmptyString -> Lines.splitlines l = [l].
Proof.
  induction l as [|c l IH]; intros H Hne; [done|].
  cbn [boundary_free] in H. apply andb_true_iff in H as [Hc Hl].
  apply negb_true_iff in Hc.
  rewrite (splitlines_no_boundary c l Hc). destruct l as [|d l]; [done|].
  by rewrite (IH Hl).
Qed.

Lemma splitlines_unlines_free (ls : list string) :
  forallb boundary_free ls = true -> Lines.splitlines (unlines ls) = ls.
Proof.
  induction ls as [|l ls IH]; cbn [unlines forallb]; [done|].
  intros H. apply andb_true_iff in H as [Hl Hls].
  by rewrite (splitlines_line_free l _ Hl), (IH Hls).
Qed.

Lemma append_assoc (a b c : string) : (a +:+ b) +:+ c = a +:+ b +:+ c.
Proof.
  induction a as [|x a IH]; [done|]. by rewrite !append_cons, IH.
Qed.

Lemma splitlines_unlines_last_free (ls : list string) (l : string) :
  forallb boundary_free ls = true -> boundary_free l = true -> l <> EmptyString ->
  Lines.splitlines (unlines ls +:+ l) = ls ++ [l].
Proof.
  intros Hls Hl Hne. induction ls as [|x ls IH]; cbn [unlines forallb app] in *.
  - rewrite append_nil_l. by apply splitlines_last_free.
  - apply andb_true_iff in Hls as [Hx Hls].
    rewrite !append_assoc, (splitlines_line_free x _ Hx), (IH Hls). done.
Qed.

(** X9.  [check_file_length] counts the lines of a text as its line-feed
    terminated lines plus a last line that is not terminated, for lines that
    hold no line boundary: a file of exactly [max_lines] lines passes, one
    more fails, and the message gives the number counted. *)
Theorem file_length_counts_lines (w : world) (file : Path) (max_lines : nat)
    (ls : list string) (tree : option (list stmt)) :
  forallb boundary_free ls = true ->
  (stat w file = Some (File (unlines ls) tree) ->
   check_file_length w file max_lines
   = if Nat.ltb max_lines (length ls)
     then fail (msg_too_long file (length ls) max_lines)
     else ret tt)
  /\ (forall l, boundary_free l = true -> l <> EmptyString ->
      stat w file = Some (File (unlines ls +:+ l) tree) ->
      check_file_length w file max_lines
      = if Nat.ltb max_lines (S (length ls))
        then fail (msg_too_long file (S (length ls)) max_lines)
        else ret tt).
Proof.
  intros Hls. split.
  - intros Hs. pose proof (check_file_length_cases w file max_lines) as H.
    rewrite Hs in H. by rewrite H, (splitlines_unlines_free ls Hls).
  - intros l Hl Hne Hs. pose proof (check_file_length_cases w file max_lines) as H.
    rewrite Hs in H. rewrite H, (splitlines_unlines_last_free ls l Hls Hl Hne).
    rewrite length_app. cbn [length]. by rewrite Nat.add_1_r.
Qed.

Lemma file_length_counts_lines_witness :
  check_file_length
    (mk_world ["/"; "p"]
       [("a.py", File (unlines ["# — заголовок ©"; "print('❌ ✔')"]) None)])
    ["/"; "p"; "a.py"] 2
  = ret tt
  /\ check_file_length
       (mk_world ["/"; "p"]
          [("a.py",
            File (unlines ["# — заголовок ©"; "print('❌ ✔')"] +:+ "z = 3") None)])
       ["/"; "p"; "a.py"] 2
     = fail (msg_too_long ["/"; "p"; "a.py"] 3 2).
Proof.
  split.
  - apply (proj1 (file_length_counts_lines
             (mk_world ["/"; "p"]
                [("a.py", File (unlines ["# — заголовок ©"; "print('❌ ✔')"]) None)])
             ["/"; "p"; "a.py"] 2 ["# — заголовок ©"; "print('❌ ✔')"] None eq_refl)).
    reflexivity.
  - apply (proj2 (file_length_counts_lines
             (mk_world ["/"; "p"]
                [("a.py",
                  File (unlines ["# — заголовок ©"; "print('❌ ✔')"] +:+ "z = 3") None)])
             ["/"; "p"; "a.py"] 2 ["# — заголовок ©"; "print('❌ ✔')"] None eq_refl)
           "z = 3").
    + reflexivity.
    + discriminate.
    + reflexivity.
Defined.

(** ** The README *)

Lemma prefix_spec (a b : string) :
  String.prefix a b = true <-> exists q, b = a +:+ q.
Proof.
  revert b. induction a as [|x a IH]; intros b.
  - split; [|by destruct b]. intros _. by exists b.
  - destruct b as [|y b].
    + split; [done|]. by intros [q ?].
    + cbn [String.prefix]. destruct (Ascii.ascii_dec x y) as [->|Hne].
      * rewrite IH. split; intros [q E]; exists q.
        -- by rewrite append_cons, <- E.
        -- rewrite append_cons in E. by injection E.
      * split; [done|]. intros [q E]. rewrite append_cons in E. by injection E.
Qed.

Lemma contains_unfold (hay needle : string) :
  Lines.contains hay needle
  = (String.prefix needle hay
     || match hay with
        | EmptyString => false
        | String _ hay' => Lines.contains hay' needle
        end).
Proof. by destruct hay. Qed.

(** [needle in hay] holds exactly when [needle] occurs somewhere in [hay]. *)
Lemma contains_spec (hay needle : string) :
  Lines.contains hay needle = true <-> exists p q, hay = p +:+ needle +:+ q.
Proof.
  split.
  - induction hay as [|c hay IH]; rewrite contains_unfold; intros H.
    + rewrite orb_false_r in H. apply prefix_spec in H as [q ->].
      by exists EmptyString, q.
    + apply orb_true_iff in H as [H|H].
      * apply prefix_spec in H as [q ->]. by exists EmptyString, q.
      * destruct (IH H) as (p & q & ->). by exists (String c p), q.
  - intros (p & q & ->). induction p as [|c p IH]; rewrite contains_unfold.
    + rewrite append_nil_l.
      assert (String.prefix needle (needle +:+ q) = true) as ->
        by (apply prefix_spec; by exists q).
      done.
    + rewrite append_cons. cbv match. rewrite IH. apply orb_true_r.
Qed.

Section Readme.

Variable str_strip str_lower : string -> string.

(** X10.  [check_readme] returns exactly when [README.md] is a regular file
    whose stripped text is not empty, starts with [#], has among its first
    15 lines one that does not start with [#] and is longer than 10
    characters once stripped, and whose lowered text contains a lowered
    installation keyword and a lowered run keyword. *)
Theorem readme_accepted (w : world) :
  result (check_readme str_strip str_lower w) = Returned tt
  <-> exists text tree,
        stat w (PROJECT_ROOT w ++ ["README.md"]) = Some (File text tree)
        /\ str_strip text <> EmptyString
        /\ (exists q, str_strip text = "#" +:+ q)
        /\ (exists line,
              line ∈ take 15 (Lines.splitlines (str_strip text))
              /\ Str.startswith line "#" = false
              /\ 10 < Lines.len (str_strip line))
        /\ (exists keyword p q,
              keyword ∈ install_keywords
              /\ str_lower (str_strip text) = p +:+ str_lower keyword +:+ q)
        /\ (exists keyword p q,
              keyword ∈ run_keywords
              /\ str_lower (str_strip text) = p +:+ str_lower keyword +:+ q).
Proof.
  unfold check_readme, read_text, is_file.
  destruct (stat w (PROJECT_ROOT w ++ ["README.md"])) as [[text tree|es|]|];
    cbn [negb when]; try (split; [done|by intros (? & ? & ? & _)]).
  rewrite !bind_ret_l.
  rewrite !returned_seq, !returned_when_fail, !negb_false_iff.
  assert (forall keywords,
    existsb (fun keyword =>
      Lines.contains (str_lower (str_strip text)) (str_lower keyword)) keywords = true
    <-> exists keyword p q,
          keyword ∈ keywords
          /\ str_lower (str_strip text) = p +:+ str_lower keyword +:+ q) as Hkw.
  { intros keywords. rewrite existsb_exists. split.
    - intros (k & Hin & Hc). apply contains_spec in Hc as (p & q & E).
      exists k, p, q. split; [by apply list_elem_of_In|done].
    - intros (k & p & q & Hin & E). exists k. split; [by apply list_elem_of_In|].
      apply contains_spec. by exists p, q. }
  rewrite !Hkw. unfold Str.startswith at 1. rewrite prefix_spec.
  rewrite existsb_exists.
  split.
  - intros (Hne & Hh & Hd & Hi & Hr & _). exists text, tree. split; [done|].
    split; [by intros E; rewrite E in Hne|]. split; [done|]. split; [|done].
    destruct Hd as (line & Hin & Hlen). apply filter_In in Hin as [Hin Hs].
    exists line. split; [by apply list_elem_of_In|]. split; [by apply negb_true_iff|].
    by apply Nat.ltb_lt.
  - intros (text' & tree' & [= <- <-] & Hne & Hh & (line & Hin & Hs & Hlen) & Hi & Hr).
    split; [by apply String.eqb_neq|]. split; [done|]. split; [|done].
    exists line. split; [|by apply Nat.ltb_lt]. apply filter_In.
    split; [by apply list_elem_of_In|by apply negb_true_iff].
Qed.

End Readme.

(** ** Coverage and order *)

Lemma check_structure_names (w : world) :
  result (check_structure w) = Returned tt ->
  forall file, file ∈ dir_items w (FLOWS_DIR w) ->
    is_file w file = true ->
    path_name file = "__init__.py"
    \/ exists stem, path_name file = stem +:+ "_flow.py".
Proof.
  unfold check_structure. intros H.
  destruct (is_dir w (FLOWS_DIR w)) eqn:Hd.
  2:{ by rewrite orb_true_r in H. }
  assert (path_exists w (FLOWS_DIR w) = true) as Hex.
  { unfold path_exists, is_dir in *. by destruct (stat w (FLOWS_DIR w)). }
  rewrite Hex in H. cbn [negb orb when] in H.
  rewrite bind_ret_l, (iterdir_dir_items w _ Hd), bind_ret_l in H.
  apply returned_seq in H as [H _].
  intros file Hin Hf. apply (proj1 (for_each_returned _ _) H) in Hin.
  rewrite Hf in Hin. cbn [negb] in Hin.
  destruct (String.eqb_spec (path_name file) "__init__.py") as [E|E]; [by left|].
  right. apply returned_when_fail, negb_false_iff in Hin. by apply endswith_spec.
Qed.

(** X11.  Once [check_structure] has passed, every regular file of the flows
    directory other than [__init__.py] is among the files
    [check_flow_run_signature] examines. *)
Theorem flow_files_all_examined (w : world) :
  result (check_structure w) = Returned tt ->
  forall file, file ∈ dir_items w (FLOWS_DIR w) ->
    is_file w file = true ->
    path_name file <> "__init__.py" ->
    file ∈ glob w (FLOWS_DIR w) "_flow.py".
Proof.
  intros H file Hin Hf Hne.
  destruct (check_structure_names w H file Hin Hf) as [E|Hs]; [done|].
  apply endswith_spec in Hs.
  unfold dir_items in Hin. unfold glob.
  destruct (stat w (FLOWS_DIR w)) as [[|entries|]|]; try by apply elem_of_nil in Hin.
  rewrite list_elem_of_In, in_map_iff in Hin. destruct Hin as (e & <- & Hin).
  rewrite path_name_app in Hs.
  rewrite list_elem_of_In, in_map_iff. exists e. split; [done|].
  apply filter_In. done.
Qed.

Lemma flow_files_all_examined_witness :
  ["/"; "srv"; "proj"; "app"; "outsource"; "flows"; "pay_flow.py"]
  ∈ glob Project.complete (FLOWS_DIR Project.complete) "_flow.py".
Proof.
  apply (flow_files_all_examined Project.complete).
  - reflexivity.
  - vm_compute. apply list_elem_of_further, list_elem_of_here.
  - reflexivity.
  - discriminate.
Defined.

Lemma walk_queue_prefix (xs ys : list stmt) (fuel : nat) :
  queue_size (xs ++ ys) <= fuel ->
  walk_queue fuel (xs ++ ys)
  = xs ++ walk_queue (fuel - length xs) (ys ++ flat_map iter_child_nodes xs).
Proof.
  revert ys fuel. induction xs as [|x xs IH]; intros ys fuel Hfuel.
  - cbn [app length flat_map]. by rewrite Nat.sub_0_r, app_nil_r.
  - cbn [app queue_size] in Hfuel. rewrite stmt_size_children in Hfuel.
    destruct fuel as [|fuel]; [lia|].
    cbn [app walk_queue length flat_map Nat.sub]. f_equal.
    rewrite <- app_assoc, IH.
    + by rewrite <- app_assoc.
    + rewrite !queue_size_app in *. lia.
Qed.

Lemma queue_size_level (xs : list stmt) :
  queue_size xs = length xs + queue_size (flat_map iter_child_nodes xs).
Proof.
  induction xs as [|x xs IH]; [done|].
  cbn [queue_size length flat_map]. rewrite queue_size_app, stmt_size_children, IH. lia.
Qed.

Lemma walk_level_order (body : list stmt) :
  walk body = body ++ walk (flat_map iter_child_nodes body).
Proof.
  unfold walk.
  rewrite <- (app_nil_r body) at 2. rewrite walk_queue_prefix.
  - cbn [app]. f_equal. f_equal. rewrite (queue_size_level body). lia.
  - by rewrite app_nil_r.
Qed.

(** X12.  The scan of a module follows the breadth-first order of
    [ast.walk]: a forbidden import at top level, preceded by no forbidden
    top-level import, is the violation the scan reports, even when forbidden
    imports are nested in the statements before it. *)
Theorem shallowest_import_first (lm : gset string) (py_file : Path)
    (pre : list stmt) (node : stmt) (post : list stmt) (msg : string) :
  (forall s, s ∈ pre -> ~ flagged lm s) ->
  check_import_node lm py_file node = fail msg ->
  for_each (walk (pre ++ node :: post)) (check_import_node lm py_file) = fail msg.
Proof.
  intros Hpre Hnode. rewrite walk_level_order, <- !app_assoc.
  rewrite for_each_app, (for_each_silent pre).
  - rewrite bind_ret_l. cbn [app for_each]. by rewrite Hnode.
  - intros s Hs.
    destruct (check_import_node_cases lm py_file s) as [[Hfl _]|[_ E]];
      [by destruct (Hpre s Hs)|done].
Qed.

Lemma shallowest_import_first_witness :
  for_each
    (walk ([FunctionDef "load" no_arguments
              [Import [mk_alias "eksmo_src.other" None]] []]
           ++ Import [mk_alias "demonstration.util" None] :: []))
    (check_import_node Sample.local_modules Sample.app_file)
  = fail (msg_import Sample.app_file "demonstration.util").
Proof.
  apply shallowest_import_first.
  - intros s Hs. apply list_elem_of_singleton in Hs as ->. intros H. exact H.
  - reflexivity.
Defined.

(** X13.  The local-module set does not depend on the order in which the
    project root is listed. *)
Theorem local_modules_order_independent (w : world) (items items' : list Path) :
  items ≡ₚ items' ->
  collect_local_modules w items = collect_local_modules w items'.
Proof.
  intros Hp. apply set_eq. intros n. rewrite !collect_local_modules_spec.
  split; intros (item & Hin & Hc); exists item; split; try done.
  - by rewrite <- Hp.
  - by rewrite Hp.
Qed.

Lemma local_modules_order_independent_witness :
  collect_local_modules Shadow.project (root_items Shadow.project)
  = collect_local_modules Shadow.project (rev (root_items Shadow.project)).
Proof.
  apply local_modules_order_independent, Permutation_rev.
Defined.

(** ** The transcript of a successful run *)

Lemma prints_ret {A} (a : A) : prints_on_return (ret a) [].
Proof. by intros ? _. Qed.

Lemma prints_raise {A} (exc : string) (lines : list string) :
  prints_on_return (@raise A exc) lines.
Proof. by intros ? ?. Qed.

Lemma prints_fail (message : string) (lines : list string) :
  prints_on_return (fail message) lines.
Proof. by intros ? ?. Qed.

Lemma prints_print (line : string) : prints_on_return (print line) [line].
Proof. by intros ? _. Qed.

Lemma prints_when (b : bool) (message : string) :
  prints_on_return (when b (fail message)) [].
Proof. destruct b; [apply prints_fail|apply prints_ret]. Qed.

Lemma prints_bind {A B} (p : proc A) (k : A -> proc B) (l1 l2 : list string) :
  prints_on_return p l1 -> (forall a, prints_on_return (k a) l2) ->
  prints_on_return (p ≫= k) (l1 ++ l2).
Proof.
  intros Hp Hk b Hb. destruct p as [out [a|c|e]]; try done.
  rewrite bind_returned in Hb |- *. pose proof (Hp a eq_refl) as E.
  cbn [result stdout fst snd] in *. by rewrite E, (Hk a b Hb).
Qed.

Lemma prints_for_each {X} (l : list X) (body : X -> proc unit)
    (lines : X -> list string) :
  (forall x, prints_on_return (body x) (lines x)) ->
  prints_on_return (for_each l body) (concat (List.map lines l)).
Proof.
  intros H. induction l as [|x l IH]; cbn [for_each List.map concat].
  - apply prints_ret.
  - apply prints_bind; [apply H|by intros _].
Qed.

Lemma prints_for_each_silent {X} (l : list X) (body : X -> proc unit) :
  (forall x, prints_on_return (body x) []) -> prints_on_return (for_each l body) [].
Proof.
  intros H. induction l as [|x l IH]; cbn [for_each]; [apply prints_ret|].
  apply (prints_bind _ _ [] []); [apply H|by intros _].
Qed.

Lemma prints_iterdir (w : world) (p : Path) : prints_on_return (iterdir w p) [].
Proof. unfold iterdir. by destruct (stat w p) as [[| |]|]; intros ? ?. Qed.

Lemma prints_read_text (w : world) (p : Path) : prints_on_return (read_text w p) [].
Proof. unfold read_text. by destruct (stat w p) as [[| |]|]; intros ? ?. Qed.

Lemma prints_ast_parse (w : world) (p : Path) : prints_on_return (ast_parse w p) [].
Proof. unfold ast_parse. by destruct (stat w p) as [[? [|]| |]|]; intros ? ?. Qed.

Ltac prints_step :=
  first
    [ apply prints_fail
    | apply prints_raise
    | apply prints_ret
    | apply prints_print
    | apply prints_when
    | apply prints_iterdir
    | apply prints_read_text
    | apply prints_ast_parse
    | apply prints_for_each_silent; intros ?
    | match goal with
      | |- prints_on_return (_ ≫= _) ?l => apply (prints_bind _ _ [] l); [|intros ?]
      | |- prints_on_return (if ?b then _ else _) _ => destruct b
      | |- prints_on_return (match ?x with _ => _ end) _ => destruct x
      end ].

Ltac prints := repeat prints_step.

Lemma prints_check_project_structure (w : world) :
  prints_on_return (check_project_structure w) ["✔ Структура проекта корректна"].
Proof. unfold check_project_structure. prints. Qed.

Lemma prints_check_app_directory_contents (w : world) :
  prints_on_return (check_app_directory_contents w) ["✔ Содержимое app/ корректно"].
Proof. unfold check_app_directory_contents. prints. Qed.

Lemma prints_check_import_node (lm : gset string) (f : Path) (node : stmt) :
  prints_on_return (check_import_node lm f node) [].
Proof. unfold check_import_node. prints. Qed.

Lemma prints_check_app_imports (w : world) :
  prints_on_return (check_app_imports w) [msg_imports_ok].
Proof.
  unfold check_app_imports, scan_app_files. prints.
  apply prints_check_import_node.
Qed.

Lemma prints_check_structure (w : world) :
  prints_on_return (check_structure w) ["✔ Структура папок корректна"].
Proof. unfold check_structure. prints. Qed.

Lemma prints_check_demo_main (w : world) :
  prints_on_return (check_demo_main w) [msg_main_ok].
Proof.
  unfold check_demo_main, check_demo_tree. prints.
Qed.

Lemma prints_check_run_method (c : stmt) (file : Path) :
  prints_on_return (check_run_method c file) [msg_run_ok file (stmt_name c)].
Proof. unfold check_run_method. prints. Qed.

Lemma prints_check_flow_file (w : world) (file : Path) :
  prints_on_return (check_flow_file w file)
    [msg_run_ok file (flow_class_name w file)].
Proof.
  unfold check_flow_file, flow_class_name, ast_parse.
  destruct (stat w file) as [[text [body|]|es|]|]; try apply prints_raise.
  rewrite bind_ret_l. unfold check_flow_tree.
  destruct (flow_classes_of body) as [|c l]; prints.
  apply prints_check_run_method.
Qed.

Lemma prints_check_flow_run_signature (w : world) :
  prints_on_return (check_flow_run_signature w)
    (List.map (fun file => msg_run_ok file (flow_class_name w file))
       (glob w (FLOWS_DIR w) "_flow.py")).
Proof.
  unfold check_flow_run_signature.
  replace (List.map _ _)
    with (concat (List.map (fun file => [msg_run_ok file (flow_class_name w file)])
                    (glob w (FLOWS_DIR w) "_flow.py"))).
  - apply prints_for_each. apply prints_check_flow_file.
  - induction (glob w (FLOWS_DIR w) "_flow.py") as [|x l IH]; [done|].
    cbn [List.map concat app]. by rewrite IH.
Qed.

Lemma prints_check_readme (s l : string -> string) (w : world) :
  prints_on_return (check_readme s l w) ["✔ README.md корректен"].
Proof. unfold check_readme. prints. Qed.

Lemma prints_check_all_python_files_length (w : world) :
  prints_on_return (check_all_python_files_length w) [].
Proof.
  unfold check_all_python_files_length, check_all_python_files_length_with,
    check_file_length.
  prints.
Qed.

(** X15.  A run of [main] that ends with status 0 has printed the opening
    line, one marker for each of the first five checks, one line per flow
    file in the order of the listing, the marker of the README check and the
    banner; the length check prints nothing. *)
Theorem success_transcript (str_strip str_lower : string -> string) (w : world) :
  exit_code (main str_strip str_lower w) = 0 ->
  stdout (main str_strip str_lower w)
  = [banner_start;
     "✔ Структура проекта корректна";
     "✔ Содержимое app/ корректно";
     msg_imports_ok;
     "✔ Структура папок корректна";
     msg_main_ok]
    ++ List.map (fun file => msg_run_ok file (flow_class_name w file))
         (glob w (FLOWS_DIR w) "_flow.py")
    ++ ["✔ README.md корректен"; banner_success].
Proof.
  intros H. apply exit_code_zero in H. revert H. generalize tt at 1.
  change (prints_on_return (main str_strip str_lower w)
    ([banner_start] ++ ["✔ Структура проекта корректна"]
     ++ ["✔ Содержимое app/ корректно"] ++ [msg_imports_ok]
     ++ ["✔ Структура папок корректна"] ++ [msg_main_ok]
     ++ List.map (fun file => msg_run_ok file (flow_class_name w file))
          (glob w (FLOWS_DIR w) "_flow.py")
     ++ ["✔ README.md корректен"] ++ [] ++ [banner_success])).
  unfold main.
  apply prints_bind; [apply prints_print|intros _].
  apply prints_bind; [apply prints_check_project_structure|intros _].
  apply prints_bind; [apply prints_check_app_directory_contents|intros _].
  apply prints_bind; [apply prints_check_app_imports|intros _].
  apply prints_bind; [apply prints_check_structure|intros _].
  apply prints_bind; [apply prints_check_demo_main|intros _].
  apply prints_bind; [apply prints_check_flow_run_signature|intros _].
  apply prints_bind; [apply prints_check_readme|intros _].
  apply prints_bind; [apply prints_check_all_python_files_length|intros _].
  apply prints_print.
Qed.

Lemma success_transcript_witness :
  stdout (main Project.unchanged Project.unchanged Project.complete)
  = [banner_start;
     "✔ Структура проекта корректна";
     "✔ Содержимое app/ корректно";
     msg_imports_ok;
     "✔ Структура папок корректна";
     msg_main_ok]
    ++ List.map (fun file => msg_run_ok file (flow_class_name Project.complete file))
         (glob Project.complete (FLOWS_DIR Project.complete) "_flow.py")
    ++ ["✔ README.md корректен"; banner_success].
Proof.
  apply (success_transcript Project.unchanged Project.unchanged Project.complete).
  vm_compute. reflexivity.
Defined.

(** ** The markers of the transcript *)

Lemma marks_ret {A} (a : A) : marks_only (ret a).
Proof. apply Forall_nil_2. Qed.

Lemma marks_raise {A} (exc : string) : marks_only (@raise A exc).
Proof. apply Forall_nil_2. Qed.

Lemma marks_print (line : string) :
  Str.startswith line tick = true -> marks_only (print line).
Proof. intros H. apply Forall_cons_2; [done|apply Forall_nil_2]. Qed.

Lemma marks_fail (message : string) : marks_only (fail message).
Proof. split; [done|]. exists [], message. split; [done|apply Forall_nil_2]. Qed.

Lemma marks_bind {A B} (p : proc A) (k : A -> proc B) :
  marks_only p -> (forall a, marks_only (k a)) -> marks_only (p ≫= k).
Proof.
  destruct p as [out [a|c|e]]; intros Hp Hk; try done.
  rewrite bind_returned. specialize (Hk a). unfold marks_only in *.
  cbn [result stdout fst snd] in *.
  destruct (k a) as [out' [b|c|e]]; cbn [result stdout fst snd] in *.
  - by apply Forall_app_2.
  - destruct Hk as (-> & lines & msg & -> & Hl). split; [done|].
    exists (out ++ lines), msg. split; [by rewrite app_assoc|by apply Forall_app_2].
  - by apply Forall_app_2.
Qed.

Lemma marks_when (b : bool) (p : proc unit) : marks_only p -> marks_only (when b p).
Proof. destruct b; [done|]. intros _. apply marks_ret. Qed.

Lemma marks_for_each {X} (l : list X) (body : X -> proc unit) :
  (forall x, marks_only (body x)) -> marks_only (for_each l body).
Proof.
  intros H. induction l as [|x l IH]; cbn [for_each]; [apply marks_ret|].
  apply marks_bind; [apply H|done].
Qed.

Lemma marks_iterdir (w : world) (p : Path) : marks_only (iterdir w p).
Proof. unfold iterdir. destruct (stat w p) as [[| |]|]; apply Forall_nil_2. Qed.

Lemma marks_read_text (w : world) (p : Path) : marks_only (read_text w p).
Proof. unfold read_text. destruct (stat w p) as [[| |]|]; apply Forall_nil_2. Qed.

Lemma marks_ast_parse (w : world) (p : Path) : marks_only (ast_parse w p).
Proof.
  unfold ast_parse. destruct (stat w p) as [[? [|]| |]|]; apply Forall_nil_2.
Qed.

Ltac marks_step :=
  first
    [ apply marks_fail
    | apply marks_ret
    | apply marks_raise
    | apply marks_iterdir
    | apply marks_read_text
    | apply marks_ast_parse
    | apply marks_print; reflexivity
    | apply marks_when
    | apply marks_for_each; intros ?
    | apply marks_bind; [|intros ?]
    | match goal with
      | |- marks_only (if ?b then _ else _) => destruct b
      | |- marks_only (match ?x with _ => _ end) => destruct x
      end ].

Ltac marks := repeat marks_step.

Lemma marks_check_import_node (lm : gset string) (f : Path) (node : stmt) :
  marks_only (check_import_node lm f node).
Proof. unfold check_import_node. marks. Qed.

Lemma marks_check_run_method (cls : stmt) (file : Path) :
  marks_only (check_run_method cls file).
Proof. unfold check_run_method. marks. Qed.

Lemma marks_checks (str_strip str_lower : string -> string) (w : world) :
  Forall marks_only (checks str_strip str_lower w).
Proof.
  repeat apply Forall_cons_2; try apply Forall_nil_2.
  - unfold check_project_structure. marks.
  - unfold check_app_directory_contents. marks.
  - unfold check_app_imports, scan_app_files. marks. apply marks_check_import_node.
  - unfold check_structure. marks.
  - unfold check_demo_main, check_demo_tree. marks.
  - unfold check_flow_run_signature, check_flow_file, check_flow_tree. marks.
    all: apply marks_check_run_method.
  - unfold check_readme. marks.
  - unfold check_all_python_files_length, check_all_python_files_length_with,
      check_file_length. marks.
Qed.

Lemma marks_sequence (cs : list (proc unit)) :
  Forall marks_only cs -> marks_only (for_each cs (fun c => c)).
Proof.
  induction 1 as [|c cs Hc Hcs IH]; cbn [for_each]; [apply marks_ret|].
  by apply marks_bind.
Qed.

Lemma tick_not_cross (line : string) :
  Str.startswith line tick = true -> Str.startswith line cross = false.
Proof.
  unfold Str.startswith. intros H. apply prefix_spec in H as [q ->]. reflexivity.
Qed.

Lemma tick_not_banner (line : string) :
  Str.startswith line tick = true -> line <> banner_success.
Proof. intros H ->. discriminate H. Qed.

Lemma ticks_no_cross (lines : list string) (line : string) :
  ticks lines -> line ∈ lines -> Str.startswith line cross = false.
Proof.
  intros H Hin. apply tick_not_cross. unfold ticks in H.
  rewrite Forall_forall in H. by apply H.
Qed.

Lemma ticks_no_banner (lines : list string) : ticks lines -> banner_success ∉ lines.
Proof.
  intros H Hin. unfold ticks in H. rewrite Forall_forall in H.
  by apply (tick_not_banner banner_success (H _ Hin)).
Qed.

(** X14.  In a run of [main] a line of [fail] is printed exactly when the
    run ends through [sys.exit(1)], the success banner exactly when [main]
    returns, the status is 0 or 1, and a run that dies of an uncaught
    exception has printed the opening line and success markers only. *)
Theorem transcript_markers (str_strip str_lower : string -> string) (w : world) :
  let run := main str_strip str_lower w in
  ((exists line, line ∈ stdout run /\ Str.startswith line cross = true)
   <-> result run = SysExit 1)
  /\ (banner_success ∈ stdout run <-> result run = Returned tt)
  /\ (exit_code run = 0 \/ exit_code run = 1)
  /\ (forall exc line,
        result run = Uncaught exc -> line ∈ stdout run ->
        line = banner_start \/ Str.startswith line tick = true).
Proof.
  intros run. subst run. rewrite main_sequence.
  pose proof (marks_sequence _ (marks_checks str_strip str_lower w)) as H.
  unfold marks_only in H.
  destruct (for_each (checks str_strip str_lower w) (fun c => c))
    as [out [[]|c|e]]; cbn [result stdout fst snd] in H.
  - change (print banner_start ;; (out, Returned tt) ;; print banner_success)
      with (banner_start :: out ++ [banner_success], Returned tt).
    cbn [stdout result fst snd exit_code]. repeat split; try done; try by left.
    + intros (line & Hin & Hc). exfalso.
      apply elem_of_cons in Hin as [->|Hin]; [discriminate Hc|].
      apply elem_of_app in Hin as [Hin|Hin].
      * by rewrite (ticks_no_cross out line H Hin) in Hc.
      * apply list_elem_of_singleton in Hin as ->. discriminate Hc.
    + intros _. apply list_elem_of_further, elem_of_app. right. apply list_elem_of_here.
  - destruct H as (-> & lines & msg & -> & Hl).
    change (print banner_start ;; (lines ++ [cross +:+ " " +:+ msg], SysExit 1) ;;
            print banner_success)
      with (banner_start :: lines ++ [cross +:+ " " +:+ msg], @SysExit unit 1).
    cbn [stdout result fst snd exit_code]. repeat split; try done; try by right.
    + intros _. exists (cross +:+ " " +:+ msg). split; [|reflexivity].
      apply list_elem_of_further, elem_of_app. right. apply list_elem_of_here.
    + intros Hin. exfalso.
      apply elem_of_cons in Hin as [Hin|Hin]; [discriminate Hin|].
      apply elem_of_app in Hin as [Hin|Hin].
      * by apply (ticks_no_banner lines Hl).
      * apply list_elem_of_singleton in Hin. discriminate Hin.
  - change (print banner_start ;; (out, Uncaught e) ;; print banner_success)
      with (banner_start :: out, @Uncaught unit e).
    cbn [stdout result fst snd exit_code]. repeat split; try done; try by right.
    + intros (line & Hin & Hc). exfalso.
      apply elem_of_cons in Hin as [->|Hin]; [discriminate Hc|].
      by rewrite (ticks_no_cross out line H Hin) in Hc.
    + intros Hin. exfalso.
      apply elem_of_cons in Hin as [Hin|Hin]; [discriminate Hin|].
      by apply (ticks_no_banner out H).
    + intros exc line _ Hin. apply elem_of_cons in Hin as [->|Hin]; [by left|].
      right. unfold ticks in H. rewrite Forall_forall in H. by apply H.
Qed.

Lemma transcript_markers_witness :
  Forall (fun line => line = banner_start \/ Str.startswith line tick = true)
    (stdout (main Project.unchanged Project.unchanged
               (mk_world ["/"; "srv"; "proj"]
                  (("tools.py", Dir []) :: Project.tree_with [Sample.run_ok])))).
Proof.
  apply Forall_forall. intros line.
  apply (proj2 (proj2 (proj2 (transcript_markers Project.unchanged Project.unchanged
           (mk_world ["/"; "srv"; "proj"]
              (("tools.py", Dir []) :: Project.tree_with [Sample.run_ok])))))
         "IsADirectoryError" line).
  vm_compute. reflexivity.
Defined.

(** ** Failures of the parser *)

(** X16.  A file below [app/] that the parser refuses, or a directory there
    whose name ends with [.py], met after files without violation, ends
    [check_app_imports] with an uncaught exception: nothing is printed and
    no violation is reported. *)
Theorem app_file_not_parsed (w : world) (pre : list Path) (f : Path) (post : list Path) :
  rglob w (PROJECT_ROOT w ++ ["app"]) ".py" = pre ++ f :: post ->
  (forall g, g ∈ pre ->
     exists body,
       parses_to w g body
       /\ forall node, inside node body ->
            ~ flagged (collect_local_modules w (root_items w)) node) ->
  (forall text, stat w f = Some (File text None) ->
     exists exc, check_app_imports w = raise exc)
  /\ (forall es, stat w f = Some (Dir es) ->
     exists exc, check_app_imports w = raise exc).
Proof.
  intros Hfiles Hpre.
  assert (check_app_imports w
          = (ast_parse w f
             ≫= (fun body =>
                   for_each (walk body)
                     (check_import_node (collect_local_modules w (root_items w)) f)) ;;
             scan_app_files w (collect_local_modules w (root_items w)) post ;;
             print msg_imports_ok)) as E.
  { unfold check_app_imports. rewrite iterdir_root, bind_ret_l, Hfiles.
    unfold scan_app_files. rewrite for_each_app.
    rewrite (for_each_silent pre).
    - rewrite bind_ret_l. cbn [for_each]. by rewrite !bind_assoc.
    - intros g Hg. destruct (Hpre g Hg) as (body & Hp & Hc).
      by apply (clean_file_silent w _ g body). }
  split.
  - intros text Hs. rewrite E. unfold ast_parse. rewrite Hs. by eexists.
  - intros es Hs. rewrite E. unfold ast_parse. rewrite Hs. by eexists.
Qed.

Lemma app_file_not_parsed_witness :
  exists exc,
    check_app_imports
      (mk_world ["/"; "p"]
         [("app", Dir [("consts.py", File "X = 1" (Some [StmtOther []]));
                       ("outsource", Dir [("draft.py", File "def f(:" None)])])])
    = raise exc.
Proof.
  apply (proj1 (app_file_not_parsed
           (mk_world ["/"; "p"]
              [("app", Dir [("consts.py", File "X = 1" (Some [StmtOther []]));
                            ("outsource", Dir [("draft.py", File "def f(:" None)])])])
           [["/"; "p"; "app"; "consts.py"]]
           ["/"; "p"; "app"; "outsource"; "draft.py"] [] eq_refl
           ltac:(intros g Hg; apply list_elem_of_singleton in Hg as ->;
                 exists [StmtOther []]; split; [by exists "X = 1"|];
                 intros node Hin Hfl;
                 apply walk_spec in Hin; vm_compute in Hin;
                 apply list_elem_of_singleton in Hin as ->; exact Hfl))
         "def f(:").
  reflexivity.
Defined.
